(** * Runner Platform API: a shallow embedding of the application service

    The development follows the three Python modules of the service:

    - [models]      the pydantic schemas [RunnerApplicationCreate] and
                    [RunnerApplication] (models.py);
    - [FirestoreDB] the storage adapter over a Firestore collection
                    (database.py);
    - [main]        the FastAPI route handlers (main.py).

    Python strings are Rocq strings whose characters stand for code points
    below 256; integers are [Z]; a [datetime] is an instant counted in
    microseconds, as [Z].  An [async def] is a computation in the monad [M]:
    calling it only builds the coroutine, [await] runs it. *)

From stdpp Require Import gmap strings list sorting.
From Stdlib Require Import ZArith Ascii String.

Local Open Scope string_scope.
Local Open Scope Z_scope.

(** ** Exceptions and results *)

Inductive exn : Type :=
  | ValidationError (loc : list string)      (* pydantic; a ValueError *)
  | StorageError (message : string)          (* raised by the Firestore client *)
  | HTTPException (status_code : Z) (detail : string).

Definition is_ValueError (e : exn) : bool :=
  match e with ValidationError _ => true | _ => false end.

Definition is_HTTPException (e : exn) : bool :=
  match e with HTTPException _ _ => true | _ => false end.

Inductive result (A : Type) : Type :=
  | Ok (a : A)
  | Raise (e : exn).
Arguments Ok {A} a.
Arguments Raise {A} e.

Definition datetime : Type := Z.

(** ** models.py *)

Module models.

(** [str.isspace] on one character, after CPython's whitespace table. *)
Definition isspace (c : ascii) : bool :=
  let n := nat_of_ascii c in
  ((9 <=? n) && (n <=? 13) || (28 <=? n) && (n <=? 32)
   || (n =? 133) || (n =? 160))%nat.

Fixpoint lstrip (s : string) : string :=
  match s with
  | EmptyString => EmptyString
  | String c r => if isspace c then lstrip r else s
  end.

Fixpoint rstrip (s : string) : string :=
  match s with
  | EmptyString => EmptyString
  | String c r =>
      match rstrip r with
      | EmptyString => if isspace c then EmptyString else String c EmptyString
      | r' => String c r'
      end
  end.

(** [v.strip()] *)
Definition strip (s : string) : string := rstrip (lstrip s).

(** [Field(min_length=lo, max_length=hi)] on a [str]. *)
Definition str_length_ok (lo : option nat) (hi : option nat) (v : string) : bool :=
  match lo with Some n => (n <=? String.length v)%nat | None => true end
  && match hi with Some n => (String.length v <=? n)%nat | None => true end.

(** [Literal[...]] *)
Definition Literal (allowed : list string) (v : string) : option string :=
  if bool_decide (v ∈ allowed) then Some v else None.

Definition LEVELS : list string := ["beginner"; "intermediate"; "advanced"].
Definition GOALS : list string :=
  ["5k"; "10k"; "half_marathon"; "marathon"; "fitness"].
Definition ZONES : list string :=
  ["city_centre"; "northside"; "southside"; "docklands"; "phoenix_park";
   "coastal"; "any"].
Definition STATUSES : list string := ["pending"; "approved"; "rejected"].

(** [EmailStr] delegates to the email-validator package: on success it
    yields the normalised address.  The package is taken as a parameter,
    together with the one property of it that is used: an address it has
    normalised is accepted again, unchanged. *)
Class EmailStr := {
  validate_email : string → option string;
  validate_email_normalized :
    ∀ v e, validate_email v = Some e → validate_email e = Some e
}.

(** The nine submitted fields.  The record is used both for the keyword
    arguments handed to the class and for the instance it builds. *)
Record RunnerApplicationCreate : Type := {
  name : string;
  email : string;
  age : Z;
  level : string;
  goal : string;
  availability : list string;
  dublin_zone : string;
  experience : option string;
  current_pace : option string
}.

(** [validate_name]: the after-validator of [name]. *)
Definition validate_name (v : string) : option string :=
  match strip v with
  | EmptyString => None                 (* raise ValueError("Name cannot be empty") *)
  | s => Some s
  end.

(** [validate_availability]: the after-validator of [availability]. *)
Definition validate_availability (v : list string) : option (list string) :=
  match v with
  | [] => None
  | _ => Some v
  end.

Definition name_field (v : string) : option string :=
  if str_length_ok (Some 2%nat) (Some 100%nat) v then validate_name v else None.

Definition age_field (v : Z) : option Z :=
  if (18 <=? v) && (v <=? 100) then Some v else None.

Definition availability_field (v : list string) : option (list string) :=
  if (1 <=? List.length v)%nat then validate_availability v else None.

Definition optional_str_field (hi : nat) (v : option string)
  : option (option string) :=
  match v with
  | None => Some None
  | Some s => if str_length_ok None (Some hi) s then Some (Some s) else None
  end.

Definition loc_of {A} (field : string) (o : option A) : list string :=
  match o with Some _ => [] | None => [field] end.

Section validation.
Context {emails : EmailStr}.

(** The fields of the keyword arguments that fail validation, in
    declaration order. *)
Definition errors (kw : RunnerApplicationCreate) : list string :=
  loc_of "name" (name_field (name kw))
  ++ loc_of "email" (validate_email (email kw))
  ++ loc_of "age" (age_field (age kw))
  ++ loc_of "level" (Literal LEVELS (level kw))
  ++ loc_of "goal" (Literal GOALS (goal kw))
  ++ loc_of "availability" (availability_field (availability kw))
  ++ loc_of "dublin_zone" (Literal ZONES (dublin_zone kw))
  ++ loc_of "experience" (optional_str_field 500 (experience kw))
  ++ loc_of "current_pace" (optional_str_field 20 (current_pace kw)).

Definition fields (kw : RunnerApplicationCreate)
  : option RunnerApplicationCreate :=
  n ← name_field (name kw);
  e ← validate_email (email kw);
  a ← age_field (age kw);
  l ← Literal LEVELS (level kw);
  g ← Literal GOALS (goal kw);
  av ← availability_field (availability kw);
  z ← Literal ZONES (dublin_zone kw);
  ex ← optional_str_field 500 (experience kw);
  cp ← optional_str_field 20 (current_pace kw);
  Some {| name := n; email := e; age := a; level := l; goal := g;
          availability := av; dublin_zone := z; experience := ex;
          current_pace := cp |}.

(** The constructor call of [RunnerApplicationCreate] on keyword
    arguments [kw]. *)
Definition RunnerApplicationCreate_init (kw : RunnerApplicationCreate)
  : result RunnerApplicationCreate :=
  match fields kw with
  | Some a => Ok a
  | None => Raise (ValidationError (errors kw))
  end.
End validation.

(** [application.model_dump()]: the dict of the nine fields. *)
Definition model_dump (a : RunnerApplicationCreate) : RunnerApplicationCreate := a.

(** [RunnerApplication(RunnerApplicationCreate)]: the inherited fields and
    the three of the subclass. *)
Record RunnerApplication : Type := {
  base : RunnerApplicationCreate;
  id : string;
  created_at : datetime;
  status : string
}.

Section stored.
Context {emails : EmailStr}.

(** The constructor call of [RunnerApplication] on the keyword arguments
    of a stored dict: the inherited fields are validated as above, with
    the same validators, and [status] against its literals. *)
Definition RunnerApplication_init (kw : RunnerApplicationCreate)
    (doc_id : string) (created : datetime) (st : string)
  : result RunnerApplication :=
  match fields kw, Literal STATUSES st with
  | Some a, Some s =>
      Ok {| base := a; id := doc_id; created_at := created; status := s |}
  | _, _ =>
      Raise (ValidationError
               (errors kw ++ loc_of "status" (Literal STATUSES st)))
  end.
End stored.

End models.

(** ** The Firestore collection and the world around it *)

(** A stored document of the collection [applications]: the dict written
    by the adapter (the dumped fields, [created_at] and [status]). *)
Record document : Type := {
  doc_fields : models.RunnerApplicationCreate;
  doc_created_at : datetime;
  doc_status : string
}.

(** The remote collection, keyed by document id, and a counter of the
    effects performed so far, which indexes what the outside world answers. *)
Record state : Type := {
  docs : gmap string document;
  tick : nat
}.

(** What the program does not control: whether the n-th remote call fails
    (and with which message), the clock, and the random source. *)
Class Environment := {
  fault : nat → option string;
  utcnow : nat → datetime;
  choice : nat → nat → nat
}.

(** ** Coroutines: state and exceptions *)

Definition M (A : Type) : Type := state → result A * state.

Definition ret {A} (a : A) : M A := λ st, (Ok a, st).

Definition raise {A} (e : exn) : M A := λ st, (Raise e, st).

Definition bind {A B} (c : M A) (k : A → M B) : M B :=
  λ st, match c st with
        | (Ok a, st') => k a st'
        | (Raise e, st') => (Raise e, st')
        end.

(** [try: c  except Exception as e: h e] *)
Definition try_except {A} (c : M A) (h : exn → M A) : M A :=
  λ st, match c st with
        | (Ok a, st') => (Ok a, st')
        | (Raise e, st') => h e st'
        end.

(** [await c]: run the coroutine [c]. *)
Definition await {A} (c : M A) : M A := c.

(** An exception raised by a synchronous call. *)
Definition from_result {A} (r : result A) : M A := λ st, (r, st).

#[export] Instance M_ret : MRet M := @ret.
#[export] Instance M_bind : MBind M := λ A B k c, bind c k.

(** ** The Firestore client *)

Module firestore.
Section client.
Context {env : Environment}.

(** One remote call: it fails when the world says so, and otherwise acts
    on the collection. *)
Definition rpc {A} (f : gmap string document → result A * gmap string document)
  : M A :=
  λ st,
    match fault (tick st) with
    | Some message =>
        (Raise (StorageError message), {| docs := docs st; tick := S (tick st) |})
    | None =>
        let '(r, d) := f (docs st) in (r, {| docs := d; tick := S (tick st) |})
    end.

Definition AUTO_ID_CHARS : string :=
  "ABCDEFGHIJKLMNOPQRSTUVWXYZabcdefghijklmnopqrstuvwxyz0123456789".

Definition random_choice (s : string) (r : nat) : ascii :=
  match String.get (r mod String.length s) s with
  | Some c => c
  | None => "A"%char
  end.

Fixpoint random_chars (rnd : nat → nat) (n : nat) : string :=
  match n with
  | O => EmptyString
  | S k => String (random_choice AUTO_ID_CHARS (rnd k)) (random_chars rnd k)
  end.

(** [collection.document()]: a reference with a random 20-character id.
    No remote call is made. *)
Definition document_auto : M string :=
  λ st, (Ok (random_chars (choice (tick st)) 20), st).

(** [datetime.utcnow()] *)
Definition datetime_utcnow : M datetime := λ st, (Ok (utcnow (tick st)), st).

(** [doc_ref.set(data)] *)
Definition set (doc_id : string) (data : document) : M unit :=
  rpc (λ d, (Ok tt, <[doc_id := data]> d)).

(** [doc_ref.get()]: the snapshot; [None] when [doc.exists] is false. *)
Definition get (doc_id : string) : M (option document) :=
  rpc (λ d, (Ok (d !! doc_id), d)).

(** [doc_ref.delete()] *)
Definition delete (doc_id : string) : M unit :=
  rpc (λ d, (Ok tt, base.delete doc_id d)).

(** [doc_ref.update({'status': status})] *)
Definition update_status (doc_id : string) (status : string) : M unit :=
  rpc (λ d,
    match d !! doc_id with
    | Some doc =>
        (Ok tt, <[doc_id := {| doc_fields := doc_fields doc;
                               doc_created_at := doc_created_at doc;
                               doc_status := status |}]> d)
    | None => (Raise (StorageError "NotFound"), d)
    end).

(** A query on the collection ordered by [created_at] descending. *)
Record Query : Type := {
  filters : list (string * string);
  limit_to : option Z
}.

Definition order_by_created_at_desc : Query :=
  {| filters := []; limit_to := None |}.

Definition where_eq (q : Query) (field_path value : string) : Query :=
  {| filters := filters q ++ [(field_path, value)]; limit_to := limit_to q |}.

Definition limit (q : Query) (n : Z) : Query :=
  {| filters := filters q; limit_to := Some n |}.

Definition field_value (field_path : string) (doc : document) : option string :=
  if bool_decide (field_path = "level") then Some (models.level (doc_fields doc))
  else if bool_decide (field_path = "goal") then Some (models.goal (doc_fields doc))
  else None.

Definition satisfies (q : Query) (kd : string * document) : Prop :=
  Forall (λ w : string * string, field_value w.1 kd.2 = Some w.2) (filters q).

(** The order of the result: later [created_at] first, and among equal
    instants the greater document name first. *)
Definition newer_first (x y : string * document) : Prop :=
  doc_created_at y.2 < doc_created_at x.2
  ∨ (doc_created_at y.2 = doc_created_at x.2 ∧ String.leb y.1 x.1 = true).

#[export] Instance newer_first_dec x y : Decision (newer_first x y).
Proof. unfold newer_first. apply _. Defined.

#[export] Instance satisfies_dec q kd : Decision (satisfies q kd).
Proof. unfold satisfies. apply _. Defined.

Definition run_query (q : Query) (d : gmap string document)
  : list (string * document) :=
  let ordered := merge_sort newer_first (map_to_list d) in
  let selected := filter (satisfies q) ordered in
  match limit_to q with
  | Some n => take (Z.to_nat n) selected
  | None => selected
  end.

Definition limit_ok (q : Query) : bool :=
  match limit_to q with
  | Some n => (0 <=? n) && (n <? 2 ^ 31)
  | None => true
  end.

(** [query.stream()], consumed to the end. *)
Definition stream (q : Query) : M (list (string * document)) :=
  rpc (λ d,
    if limit_ok q then (Ok (run_query q d), d)
    else (Raise (StorageError "InvalidArgument"), d)).
End client.
End firestore.

(** ** database.py *)

Module FirestoreDB.
Section adapter.
Context {emails : models.EmailStr} {env : Environment}.

(** [data = doc.to_dict(); data['id'] = doc.id], then the constructor of
    [RunnerApplication] on [data]. *)
Definition to_application (doc_id : string) (doc : document)
  : result models.RunnerApplication :=
  models.RunnerApplication_init
    (doc_fields doc) doc_id (doc_created_at doc) (doc_status doc).

Definition create_application (application : models.RunnerApplicationCreate)
  : M string :=
  try_except
    (let data := models.model_dump application in
     now ← firestore.datetime_utcnow;
     let data := {| doc_fields := data; doc_created_at := now;
                    doc_status := "pending" |} in
     doc_ref ← firestore.document_auto;
     _ ← await (firestore.set doc_ref data);
     mret doc_ref)
    (λ e, raise e).

Definition get_application (application_id : string)
  : M (option models.RunnerApplication) :=
  try_except
    (doc ← await (firestore.get application_id);
     match doc with
     | None => mret None
     | Some d =>
         r ← from_result (to_application application_id d);
         mret (Some r)
     end)
    (λ e, raise e).

(** The loop [async for doc in docs: applications.append(...)]. *)
Fixpoint to_applications (l : list (string * document))
  : result (list models.RunnerApplication) :=
  match l with
  | [] => Ok []
  | (doc_id, doc) :: l' =>
      match to_application doc_id doc with
      | Raise e => Raise e
      | Ok r =>
          match to_applications l' with
          | Raise e => Raise e
          | Ok rs => Ok (r :: rs)
          end
      end
  end.

(** [if level:] on an optional string: [None] and the empty string are
    both false. *)
Definition truthy (o : option string) : option string :=
  match o with
  | Some EmptyString => None
  | _ => o
  end.

Definition get_applications (limit : Z) (level goal : option string)
  : M (list models.RunnerApplication) :=
  try_except
    (let query := firestore.order_by_created_at_desc in
     let query :=
       match truthy level with
       | Some v => firestore.where_eq query "level" v
       | None => query
       end in
     let query :=
       match truthy goal with
       | Some v => firestore.where_eq query "goal" v
       | None => query
       end in
     let query := firestore.limit query limit in
     found ← await (firestore.stream query);
     from_result (to_applications found))
    (λ e, raise e).

Definition delete_application (application_id : string) : M bool :=
  try_except
    (doc ← await (firestore.get application_id);
     match doc with
     | None => mret false
     | Some _ =>
         _ ← await (firestore.delete application_id);
         mret true
     end)
    (λ e, raise e).

Definition update_application_status (application_id status : string)
  : M (option models.RunnerApplication) :=
  try_except
    (doc ← await (firestore.get application_id);
     match doc with
     | None => mret None
     | Some _ =>
         _ ← await (firestore.update_status application_id status);
         await (get_application application_id)
     end)
    (λ e, raise e).
End adapter.
End FirestoreDB.

(** ** main.py *)

Module main.

Record HealthResponse : Type := {
  health_status : string;
  message : string;
  version : string;
  timestamp : option datetime
}.

(** The dict built by [get_stats]. *)
Record stats : Type := {
  total_applications : nat;
  by_level : gmap string nat;
  by_goal : gmap string nat;
  by_zone : gmap string nat
}.

Inductive content : Type :=
  | Health (h : HealthResponse)
  | Application (r : models.RunnerApplication)
  | Applications (l : list models.RunnerApplication)
  | Stats (s : stats)
  | Detail (detail : string)
  | ValidationDetail (loc : list string)
  | NoContent.

Record response : Type := {
  status_code : Z;
  body : content
}.

(** The JSON body of a creation request: the values given for the nine
    declared fields, and whatever other keys the caller has sent. *)
Record payload : Type := {
  kwargs : models.RunnerApplicationCreate;
  extra : list (string * string)
}.

(** [str(e)] *)
Definition str (e : exn) : string :=
  match e with
  | ValidationError loc => String.concat ", " loc
  | StorageError message => message
  | HTTPException _ detail => detail
  end.

(** What FastAPI makes of a handler: the value it returns is rendered, an
    [HTTPException] becomes a response with its status code, and any other
    exception a 500. *)
Definition route {A} (render : A → response) (handler : M A)
  : state → response * state :=
  λ st,
    match handler st with
    | (Ok a, st') => (render a, st')
    | (Raise (HTTPException code detail), st') =>
        ({| status_code := code; body := Detail detail |}, st')
    | (Raise _, st') =>
        ({| status_code := 500; body := Detail "Internal Server Error" |}, st')
    end.

Section handlers.
Context {emails : models.EmailStr} {env : Environment}.

Definition root : HealthResponse :=
  {| health_status := "healthy"; message := "Runner Platform API is running";
     version := "1.0.0"; timestamp := None |}.

(** The handler of GET /health.  The call [db.get_applications(limit=1)]
    has no [await]: the coroutine is built and dropped. *)
Definition health_check : M (HealthResponse + response) :=
  try_except
    (let _ := FirestoreDB.get_applications 1 None None in
     now ← firestore.datetime_utcnow;
     mret (inl {| health_status := "healthy";
                  message := "All systems operational";
                  version := "1.0.0"; timestamp := Some now |}))
    (λ e,
       mret (inr {| status_code := 503;
                    body := Health {| health_status := "unhealthy";
                                      message := "Service unavailable: " ++ str e;
                                      version := "1.0.0";
                                      timestamp := None |} |})).

Definition create_application (application : models.RunnerApplicationCreate)
  : M models.RunnerApplication :=
  try_except
    (app_id ← await (FirestoreDB.create_application application);
     created_app ← await (FirestoreDB.get_application app_id);
     match created_app with
     | None => raise (HTTPException 500 "Failed to retrieve created application")
     | Some r => mret r
     end)
    (λ e,
       if is_ValueError e then raise (HTTPException 400 (str e))
       else raise (HTTPException 500 "Failed to create application")).

(** [limit: int = 50]: [None] stands for a query parameter left out. *)
Definition list_applications (limit : option Z) (level goal : option string)
  : M (list models.RunnerApplication) :=
  let limit := default 50 limit in
  try_except
    (applications ← await (FirestoreDB.get_applications limit level goal);
     mret applications)
    (λ e, raise (HTTPException 500 "Failed to fetch applications")).

Definition get_application (application_id : string)
  : M models.RunnerApplication :=
  try_except
    (application ← await (FirestoreDB.get_application application_id);
     match application with
     | None =>
         raise (HTTPException 404
                  ("Application " ++ application_id ++ " not found"))
     | Some r => mret r
     end)
    (λ e,
       if is_HTTPException e then raise e
       else raise (HTTPException 500 "Failed to fetch application")).

Definition delete_application (application_id : string) : M unit :=
  try_except
    (success ← await (FirestoreDB.delete_application application_id);
     if (success : bool) then mret tt
     else raise (HTTPException 404
                   ("Application " ++ application_id ++ " not found")))
    (λ e,
       if is_HTTPException e then raise e
       else raise (HTTPException 500 "Failed to delete application")).

(** [d[k] = d.get(k, 0) + 1] *)
Definition count_up (k : string) (d : gmap string nat) : gmap string nat :=
  <[k := (default 0 (d !! k) + 1)%nat]> d.

(** One turn of the loop [for app in all_apps]. *)
Definition tally (s : stats) (app : models.RunnerApplication) : stats :=
  {| total_applications := total_applications s;
     by_level := count_up (models.level (models.base app)) (by_level s);
     by_goal := count_up (models.goal (models.base app)) (by_goal s);
     by_zone := count_up (models.dublin_zone (models.base app)) (by_zone s) |}.

Definition get_stats : M stats :=
  try_except
    (all_apps ← await (FirestoreDB.get_applications 1000 None None);
     let stats := {| total_applications := List.length all_apps;
                     by_level := ∅; by_goal := ∅; by_zone := ∅ |} in
     mret (foldl tally stats all_apps))
    (λ e, raise (HTTPException 500 "Failed to compute statistics")).

(** *** The routes, as FastAPI serves them *)

Definition GET_health : state → response * state :=
  route (λ r, match r with
              | inl h => {| status_code := 200; body := Health h |}
              | inr json => json
              end)
        health_check.

(** The body is parsed into [RunnerApplicationCreate] before the handler
    is called; keys that the model does not declare are dropped.  When the
    body does not validate the handler is not called and FastAPI answers
    422. *)
Definition POST_api_applications (request : payload) : state → response * state :=
  λ st,
    match models.RunnerApplicationCreate_init (kwargs request) with
    | Ok application =>
        route (λ r, {| status_code := 201; body := Application r |})
              (create_application application) st
    | Raise e =>
        ({| status_code := 422;
            body := match e with
                    | ValidationError loc => ValidationDetail loc
                    | _ => Detail (str e)
                    end |}, st)
    end.

Definition GET_api_applications (limit : option Z) (level goal : option string)
  : state → response * state :=
  route (λ l, {| status_code := 200; body := Applications l |})
        (list_applications limit level goal).

Definition GET_api_application (application_id : string)
  : state → response * state :=
  route (λ r, {| status_code := 200; body := Application r |})
        (get_application application_id).

Definition DELETE_api_application (application_id : string)
  : state → response * state :=
  route (λ _ : unit, {| status_code := 204; body := NoContent |})
        (delete_application application_id).

Definition GET_api_stats : state → response * state :=
  route (λ s, {| status_code := 200; body := Stats s |}) get_stats.
End handlers.
End main.

(** ** Concrete worlds, for running the service *)

Module worlds.

Fixpoint has_at (s : string) : bool :=
  match s with
  | EmptyString => false
  | String c r => if Ascii.eqb c "@" then true else has_at r
  end.

(** A stand-in for the email-validator package: it accepts the strings that
    hold an at sign and leaves them as they are. *)
#[export] Program Instance at_sign : models.EmailStr :=
  {| models.validate_email := λ v, if has_at v then Some v else None |}.
Next Obligation.
  intros v e. simpl. destruct (has_at v) eqn:E; intros [= <-]. by rewrite E.
Qed.

(** Every remote call succeeds; the clock advances with the effects. *)
Definition calm : Environment :=
  {| fault := λ _, None;
     utcnow := λ t, 1707213600000000 + Z.of_nat t;
     choice := λ t i, (7 * t + 3 * i)%nat |}.

(** Every remote call fails. *)
Definition offline : Environment :=
  {| fault := λ _, Some "503 failed to connect to all addresses";
     utcnow := λ t, 1707213600000000 + Z.of_nat t;
     choice := λ t i, (7 * t + 3 * i)%nat |}.

(** The first remote call succeeds, the later ones fail. *)
Definition flaky : Environment :=
  {| fault := λ t, match t with O => None | _ => Some "deadline exceeded" end;
     utcnow := λ t, 1707213600000000 + Z.of_nat t;
     choice := λ t i, (7 * t + 3 * i)%nat |}.

Definition empty : state := {| docs := ∅; tick := 0 |}.

(** The example of the schema. *)
Definition mario : models.RunnerApplicationCreate :=
  {| models.name := "Mario Rossi";
     models.email := "mario@example.com";
     models.age := 35;
     models.level := "intermediate";
     models.goal := "half_marathon";
     models.availability := ["monday_evening"];
     models.dublin_zone := "southside";
     models.experience := None;
     models.current_pace := None |}.

Definition with_name (n : string) (a : models.RunnerApplicationCreate)
  : models.RunnerApplicationCreate :=
  {| models.name := n;
     models.email := models.email a;
     models.age := models.age a;
     models.level := models.level a;
     models.goal := models.goal a;
     models.availability := models.availability a;
     models.dublin_zone := models.dublin_zone a;
     models.experience := models.experience a;
     models.current_pace := models.current_pace a |}.

Definition with_level (l : string) (a : models.RunnerApplicationCreate)
  : models.RunnerApplicationCreate :=
  {| models.name := models.name a;
     models.email := models.email a;
     models.age := models.age a;
     models.level := l;
     models.goal := models.goal a;
     models.availability := models.availability a;
     models.dublin_zone := models.dublin_zone a;
     models.experience := models.experience a;
     models.current_pace := models.current_pace a |}.

Definition with_age (n : Z) (a : models.RunnerApplicationCreate)
  : models.RunnerApplicationCreate :=
  {| models.name := models.name a;
     models.email := models.email a;
     models.age := n;
     models.level := models.level a;
     models.goal := models.goal a;
     models.availability := models.availability a;
     models.dublin_zone := models.dublin_zone a;
     models.experience := models.experience a;
     models.current_pace := models.current_pace a |}.

Definition stored (a : models.RunnerApplicationCreate) (t : datetime) (s : string)
  : document :=
  {| doc_fields := a; doc_created_at := t; doc_status := s |}.

End worlds.

(** ** Vocabulary of the statements *)

(** The state after one more remote call that left the collection as it
    was. *)
Definition bump (st : state) : state :=
  {| docs := docs st; tick := S (tick st) |}.

(** The next [n] remote calls go through. *)
Definition reachable {env : Environment} (st : state) (n : nat) : Prop :=
  ∀ i, (i < n)%nat → fault (tick st + i) = None.

(** The document with its status replaced. *)
Definition with_status (status : string) (doc : document) : document :=
  {| doc_fields := doc_fields doc;
     doc_created_at := doc_created_at doc;
     doc_status := status |}.

(** The filters that [get_applications] applies: a level or goal that is
    given and is not the empty string. *)
Definition wanted (level goal : option string) (kd : string * document) : Prop :=
  match FirestoreDB.truthy level with
  | Some v => models.level (doc_fields kd.2) = v
  | None => True
  end
  ∧ match FirestoreDB.truthy goal with
    | Some v => models.goal (doc_fields kd.2) = v
    | None => True
    end.

#[export] Instance wanted_dec level goal kd : Decision (wanted level goal kd).
Proof.
  unfold wanted.
  destruct (FirestoreDB.truthy level), (FirestoreDB.truthy goal); apply _.
Defined.

(** Later instants first. *)
Definition created_desc (x y : string * document) : Prop :=
  doc_created_at y.2 ≤ doc_created_at x.2.

(** The number of records with a given value of a field. *)
Definition occurrences (field : models.RunnerApplication → string) (k : string)
    (apps : list models.RunnerApplication) : nat :=
  List.length (filter (λ app, field app = k) apps).

(** The entry of a tally for a key: absent when nothing was counted. *)
Definition entry (n : nat) : option nat :=
  match n with O => None | S _ => Some n end.

(** * Properties *)

(** ** The monad *)

Ltac unfold_M :=
  unfold mbind, M_bind, bind, mret, M_ret, ret, raise, await, from_result,
    try_except in *.

Lemma try_reraise {A} (c : M A) st : try_except c (λ e, raise e) st = c st.
Proof. unfold try_except, raise. by destruct (c st) as [[a|e] st']. Qed.

Lemma bind_Ok {A B} (c : M A) (k : A → M B) st a st' :
  c st = (Ok a, st') → (x ← c; k x) st = k a st'.
Proof. unfold_M. by intros ->. Qed.

Lemma bind_Raise {A B} (c : M A) (k : A → M B) st e st' :
  c st = (Raise e, st') → (x ← c; k x) st = (Raise e, st').
Proof. unfold_M. by intros ->. Qed.

(** ** Strings *)

Section strip_facts.
Import models.

Lemma lstrip_length s : (String.length (lstrip s) ≤ String.length s)%nat.
Proof. induction s as [|c r IH]; simpl; [lia|]. destruct (isspace c); simpl; lia. Qed.

Lemma rstrip_length s : (String.length (rstrip s) ≤ String.length s)%nat.
Proof.
  induction s as [|c r IH]; simpl; [lia|].
  destruct (rstrip r) eqn:E; [destruct (isspace c)|]; simpl in *; lia.
Qed.

Lemma strip_length s : (String.length (strip s) ≤ String.length s)%nat.
Proof. unfold strip. pose proof (rstrip_length (lstrip s)). pose proof (lstrip_length s). lia. Qed.

Lemma rstrip_idem s : rstrip (rstrip s) = rstrip s.
Proof.
  induction s as [|c r IH]; simpl; [done|].
  destruct (rstrip r) as [|c' r'] eqn:E.
  - destruct (isspace c) eqn:Ec; simpl; [done|]. by rewrite Ec.
  - simpl in *. by rewrite IH.
Qed.

Lemma lstrip_head s : lstrip s = s ↔ match s with
                                    | EmptyString => True
                                    | String c _ => isspace c = false
                                    end.
Proof.
  destruct s as [|c r]; simpl; [done|].
  destruct (isspace c) eqn:E; split; try done.
  intros Heq. pose proof (lstrip_length r) as Hl.
  rewrite Heq in Hl. simpl in Hl. lia.
Qed.

Lemma lstrip_idem s : lstrip (lstrip s) = lstrip s.
Proof.
  induction s as [|c r IH]; simpl; [done|].
  destruct (isspace c) eqn:E; [done|]. simpl. by rewrite E.
Qed.

Lemma lstrip_rstrip s : lstrip s = s → lstrip (rstrip s) = rstrip s.
Proof.
  intros Hs. apply lstrip_head in Hs. apply lstrip_head.
  destruct s as [|c r]; simpl; [done|].
  destruct (rstrip r); [rewrite Hs|]; done.
Qed.

Lemma strip_idem s : strip (strip s) = strip s.
Proof.
  unfold strip. rewrite (lstrip_rstrip (lstrip s)) by apply lstrip_idem.
  apply rstrip_idem.
Qed.
End strip_facts.

(** ** Validation *)

Section validation_facts.
Context {emails : models.EmailStr}.
Import models.

Lemma validate_name_Some v n :
  validate_name v = Some n → n = strip v ∧ n ≠ EmptyString.
Proof. unfold validate_name. destruct (strip v) eqn:E; [done|]. by intros [= <-]. Qed.

(** What the [name] field guarantees: the bounds hold of the value as
    sent; of the value kept, only the upper bound and non-emptiness. *)
Lemma name_field_Some v n :
  name_field v = Some n →
  n = strip v ∧ n ≠ EmptyString
  ∧ (2 ≤ String.length v ≤ 100)%nat ∧ (1 ≤ String.length n ≤ 100)%nat.
Proof.
  unfold name_field, str_length_ok.
  destruct (2 <=? String.length v)%nat eqn:E1; [|done].
  destruct (String.length v <=? 100)%nat eqn:E2; [|done]. simpl.
  intros [-> Hne]%validate_name_Some.
  apply Nat.leb_le in E1, E2. pose proof (strip_length v).
  repeat split; try done; try lia.
  destruct (strip v); [done | simpl; lia].
Qed.

Lemma name_field_kept n :
  n ≠ EmptyString → strip n = n → (2 ≤ String.length n ≤ 100)%nat →
  name_field n = Some n.
Proof.
  intros Hne Hs [H1 H2]. unfold name_field, str_length_ok.
  apply Nat.leb_le in H1, H2. rewrite H1, H2. simpl.
  unfold validate_name. rewrite Hs. by destruct n.
Qed.

Lemma Literal_Some allowed v w : Literal allowed v = Some w → w = v ∧ v ∈ allowed.
Proof. unfold Literal. case_bool_decide; [|done]. by intros [= <-]. Qed.

Lemma Literal_elem allowed v : v ∈ allowed → Literal allowed v = Some v.
Proof. intros. unfold Literal. by rewrite bool_decide_eq_true_2. Qed.

Lemma Literal_None allowed v : v ∉ allowed → Literal allowed v = None.
Proof. intros. unfold Literal. by rewrite bool_decide_eq_false_2. Qed.

Lemma age_field_Some v w : age_field v = Some w → w = v ∧ 18 ≤ v ≤ 100.
Proof.
  unfold age_field. destruct (18 <=? v) eqn:E1, (v <=? 100) eqn:E2; try done.
  intros [= <-]. lia.
Qed.

Lemma availability_field_Some v w :
  availability_field v = Some w → w = v ∧ v ≠ [].
Proof.
  unfold availability_field, validate_availability.
  destruct v; simpl; [done|]. by intros [= <-].
Qed.

Lemma optional_str_field_Some hi v w :
  optional_str_field hi v = Some w →
  w = v ∧ ∀ s, v = Some s → (String.length s ≤ hi)%nat.
Proof.
  unfold optional_str_field, str_length_ok. destruct v as [s|]; simpl.
  - destruct (String.length s <=? hi)%nat eqn:E; [|done].
    intros [= <-]. split; [done|]. intros ? [= <-]. by apply Nat.leb_le.
  - by intros [= <-].
Qed.

(** The instance built from keyword arguments that validate. *)
Lemma fields_Some kw a :
  fields kw = Some a →
  name_field (name kw) = Some (name a)
  ∧ validate_email (email kw) = Some (email a)
  ∧ age a = age kw ∧ 18 ≤ age kw ≤ 100
  ∧ level a = level kw ∧ level kw ∈ LEVELS
  ∧ goal a = goal kw ∧ goal kw ∈ GOALS
  ∧ availability a = availability kw ∧ availability kw ≠ []
  ∧ dublin_zone a = dublin_zone kw ∧ dublin_zone kw ∈ ZONES
  ∧ experience a = experience kw
  ∧ (∀ s, experience kw = Some s → (String.length s ≤ 500)%nat)
  ∧ current_pace a = current_pace kw
  ∧ (∀ s, current_pace kw = Some s → (String.length s ≤ 20)%nat).
Proof.
  unfold fields. intros Hf.
  destruct (name_field (name kw)) as [n|] eqn:En; [|done].
  destruct (validate_email (email kw)) as [e|] eqn:Ee; [|done].
  destruct (age_field (age kw)) as [g|] eqn:Ea; [|done].
  destruct (Literal LEVELS (level kw)) as [l|] eqn:El; [|done].
  destruct (Literal GOALS (goal kw)) as [o|] eqn:Eg; [|done].
  destruct (availability_field (availability kw)) as [av|] eqn:Eav; [|done].
  destruct (Literal ZONES (dublin_zone kw)) as [z|] eqn:Ez; [|done].
  destruct (optional_str_field 500 (experience kw)) as [ex|] eqn:Eex; [|done].
  destruct (optional_str_field 20 (current_pace kw)) as [cp|] eqn:Ecp; [|done].
  simpl in Hf. injection Hf as <-. simpl.
  apply age_field_Some in Ea as [-> ?].
  apply Literal_Some in El as [-> ?], Eg as [-> ?], Ez as [-> ?].
  apply availability_field_Some in Eav as [-> ?].
  apply optional_str_field_Some in Eex as [-> ?], Ecp as [-> ?].
  repeat split; auto; lia.
Qed.

Lemma fields_None kw : fields kw = None → errors kw ≠ [].
Proof.
  unfold fields, errors. intros Hf.
  destruct (name_field (name kw)); [|done].
  destruct (validate_email (email kw)); [|done].
  destruct (age_field (age kw)); [|done].
  destruct (Literal LEVELS (level kw)); [|done].
  destruct (Literal GOALS (goal kw)); [|done].
  destruct (availability_field (availability kw)); [|done].
  destruct (Literal ZONES (dublin_zone kw)); [|done].
  destruct (optional_str_field 500 (experience kw)); [|done].
  destruct (optional_str_field 20 (current_pace kw)); done.
Qed.

(** A validated instance whose name still has two characters validates
    again, to itself. *)
Lemma fields_again kw a :
  fields kw = Some a → (2 ≤ String.length (name a))%nat → fields a = Some a.
Proof.
  intros Hf Hlen.
  destruct (fields_Some _ _ Hf)
    as (Hn & He & Ha & ? & Hl & ? & Hg & ? & Hav & ? & Hz & ? & Hex & ? & Hcp & ?).
  apply name_field_Some in Hn as (Hs & Hne & _ & [_ Hhi]).
  unfold fields.
  rewrite (name_field_kept (name a)); [| done | rewrite Hs; apply strip_idem | lia].
  rewrite (validate_email_normalized _ _ He). simpl.
  unfold age_field. rewrite Ha.
  replace (18 <=? age kw) with true by (symmetry; apply Z.leb_le; lia).
  replace (age kw <=? 100) with true by (symmetry; apply Z.leb_le; lia).
  simpl. rewrite Hl, Hg, Hz, !Literal_elem by done. simpl.
  unfold availability_field, validate_availability. rewrite Hav.
  destruct (availability kw) as [|x xs] eqn:Eav; [done|]. simpl.
  unfold optional_str_field, str_length_ok. rewrite Hex, Hcp.
  destruct a; simpl in *; subst.
  destruct (experience kw) as [s1|] eqn:E1, (current_pace kw) as [s2|] eqn:E2; simpl;
    repeat match goal with
           | Hb : ∀ s, Some ?x = Some s → _ |- _ =>
               specialize (Hb x eq_refl); apply Nat.leb_le in Hb; rewrite Hb
           end; by simpl.
Qed.

(** Whenever the age, a literal or the availability is out of range the
    constructor raises. *)
Lemma RunnerApplicationCreate_init_rejects kw :
  ¬ (18 ≤ age kw ≤ 100) ∨ level kw ∉ LEVELS ∨ goal kw ∉ GOALS
  ∨ dublin_zone kw ∉ ZONES ∨ availability kw = [] →
  ∃ loc, RunnerApplicationCreate_init kw = Raise (ValidationError loc).
Proof.
  intros Hbad. unfold RunnerApplicationCreate_init.
  destruct (fields kw) as [a|] eqn:E; [|eauto].
  destruct (fields_Some _ _ E)
    as (_ & _ & _ & ? & _ & ? & _ & ? & _ & ? & _ & ? & _).
  destruct Hbad as [?|[?|[?|[?|?]]]]; done.
Qed.
End validation_facts.

(** ** The adapter, operation by operation *)

Section adapter_facts.
Context {emails : models.EmailStr} {env : Environment}.

Lemma reachable_here st n : reachable st (S n) → fault (tick st) = None.
Proof. intros Hr. rewrite <-(Nat.add_0_r (tick st)). apply Hr. lia. Qed.

Lemma reachable_bump st n : reachable st (S n) → reachable (bump st) n.
Proof.
  intros Hr i Hi. simpl. rewrite <-Nat.add_succ_r. apply Hr. lia.
Qed.

Lemma reachable_weaken st n m : (m ≤ n)%nat → reachable st n → reachable st m.
Proof. intros Hle Hr i Hi. apply Hr. lia. Qed.

Lemma random_chars_length rnd n :
  String.length (firestore.random_chars rnd n) = n.
Proof. induction n as [|n IH]; simpl; [done|]. by rewrite IH. Qed.

Lemma create_application_eq application st :
  FirestoreDB.create_application application st =
  match fault (tick st) with
  | Some message => (Raise (StorageError message), bump st)
  | None =>
      (Ok (firestore.random_chars (choice (tick st)) 20),
       {| docs :=
            <[firestore.random_chars (choice (tick st)) 20 :=
                {| doc_fields := application;
                   doc_created_at := utcnow (tick st);
                   doc_status := "pending" |}]> (docs st);
          tick := S (tick st) |})
  end.
Proof.
  unfold FirestoreDB.create_application. rewrite try_reraise. unfold_M.
  unfold firestore.datetime_utcnow, firestore.document_auto, firestore.set,
    firestore.rpc, models.model_dump.
  by destruct (fault (tick st)).
Qed.

Lemma get_application_eq application_id st :
  FirestoreDB.get_application application_id st =
  match fault (tick st) with
  | Some message => (Raise (StorageError message), bump st)
  | None =>
      match docs st !! application_id with
      | None => (Ok None, bump st)
      | Some d =>
          (match FirestoreDB.to_application application_id d with
           | Ok r => Ok (Some r)
           | Raise e => Raise e
           end, bump st)
      end
  end.
Proof.
  unfold FirestoreDB.get_application. rewrite try_reraise. unfold_M.
  unfold firestore.get, firestore.rpc.
  destruct (fault (tick st)); [done|].
  destruct (docs st !! application_id) as [d|]; [|done].
  by destruct (FirestoreDB.to_application application_id d).
Qed.

Lemma delete_application_eq application_id st :
  FirestoreDB.delete_application application_id st =
  match fault (tick st) with
  | Some message => (Raise (StorageError message), bump st)
  | None =>
      match docs st !! application_id with
      | None => (Ok false, bump st)
      | Some _ =>
          match fault (S (tick st)) with
          | Some message => (Raise (StorageError message), bump (bump st))
          | None =>
              (Ok true, {| docs := delete application_id (docs st);
                           tick := S (S (tick st)) |})
          end
      end
  end.
Proof.
  unfold FirestoreDB.delete_application. rewrite try_reraise. unfold_M.
  unfold firestore.get, firestore.delete, firestore.rpc.
  destruct (fault (tick st)); [done|].
  destruct (docs st !! application_id) as [d|]; [|done]. simpl.
  by destruct (fault (S (tick st))).
Qed.

Lemma stream_eq q st :
  firestore.stream q st =
  match fault (tick st) with
  | Some message => (Raise (StorageError message), bump st)
  | None =>
      (if firestore.limit_ok q then Ok (firestore.run_query q (docs st))
       else Raise (StorageError "InvalidArgument"), bump st)
  end.
Proof.
  unfold firestore.stream, firestore.rpc.
  destruct (fault (tick st)); [done|]. by destruct (firestore.limit_ok q).
Qed.

Lemma update_application_status_eq application_id status st :
  FirestoreDB.update_application_status application_id status st =
  match fault (tick st) with
  | Some message => (Raise (StorageError message), bump st)
  | None =>
      match docs st !! application_id with
      | None => (Ok None, bump st)
      | Some d =>
          match fault (S (tick st)) with
          | Some message => (Raise (StorageError message), bump (bump st))
          | None =>
              FirestoreDB.get_application application_id
                {| docs := <[application_id := with_status status d]> (docs st);
                   tick := S (S (tick st)) |}
          end
      end
  end.
Proof.
  unfold FirestoreDB.update_application_status. rewrite try_reraise. unfold_M.
  unfold firestore.get, firestore.update_status, firestore.rpc.
  destruct (fault (tick st)); [done|].
  destruct (docs st !! application_id) as [d|] eqn:Ed; [|done]. simpl.
  destruct (fault (S (tick st))); [done|]. rewrite Ed.
  unfold with_status.
  by destruct (FirestoreDB.get_application _ _) as [[?|?] ?].
Qed.
End adapter_facts.

(** ** Queries *)

Section query_facts.
Context {emails : models.EmailStr} {env : Environment}.

Lemma field_value_level d :
  firestore.field_value "level" d = Some (models.level (doc_fields d)).
Proof. reflexivity. Qed.

Lemma field_value_goal d :
  firestore.field_value "goal" d = Some (models.goal (doc_fields d)).
Proof. reflexivity. Qed.

(** The query that [get_applications] builds. *)
Lemma query_satisfies level goal limit kd :
  let query := firestore.order_by_created_at_desc in
  let query := match FirestoreDB.truthy level with
               | Some v => firestore.where_eq query "level" v
               | None => query
               end in
  let query := match FirestoreDB.truthy goal with
               | Some v => firestore.where_eq query "goal" v
               | None => query
               end in
  firestore.satisfies (firestore.limit query limit) kd ↔ wanted level goal kd.
Proof.
  unfold wanted, firestore.satisfies.
  destruct (FirestoreDB.truthy level) as [l|], (FirestoreDB.truthy goal) as [g|];
    simpl; rewrite ?Forall_cons, ?Forall_nil; simpl;
    rewrite ?field_value_level, ?field_value_goal;
    intuition congruence.
Qed.

Lemma newer_first_created_desc x y :
  firestore.newer_first x y → created_desc x y.
Proof. unfold firestore.newer_first, created_desc. lia. Qed.

#[local] Instance newer_first_total : Total firestore.newer_first.
Proof.
  intros x y. unfold firestore.newer_first.
  destruct (Z.lt_trichotomy (doc_created_at x.2) (doc_created_at y.2))
    as [?|[Heq|?]]; [by right; left | | by left; left].
  destruct (String.leb_total x.1 y.1); [right | left]; right; split; congruence.
Qed.

#[local] Instance created_desc_trans : Transitive created_desc.
Proof. intros x y z. unfold created_desc. lia. Qed.

Lemma Sorted_weaken {A} (R1 R2 : relation A) l :
  (∀ x y, R1 x y → R2 x y) → Sorted R1 l → Sorted R2 l.
Proof.
  intros HR. induction 1 as [|x l Hl IH Hhd]; constructor; [done|].
  destruct Hhd; constructor; auto.
Qed.

Lemma StronglySorted_filter {A} (R : relation A) (P : A → Prop)
    `{!∀ x, Decision (P x)} l :
  StronglySorted R l → StronglySorted R (filter P l).
Proof.
  induction 1 as [|x l Hl IH Hall]; [constructor|].
  rewrite filter_cons. destruct (decide (P x)); [|done].
  constructor; [done|].
  apply Forall_forall. intros y [_ Hy]%list_elem_of_filter.
  by eapply Forall_forall in Hall.
Qed.

Lemma StronglySorted_take {A} (R : relation A) n l :
  StronglySorted R l → StronglySorted R (take n l).
Proof.
  intros Hl. revert n. induction Hl as [|x l Hl IH Hall]; intros [|n]; simpl;
    try constructor; [apply IH | by apply Forall_take].
Qed.

(** The documents of the collection that pass the filters, newest
    first. *)
Lemma ordered_selection level goal (d : gmap string document) :
  let all := filter (wanted level goal)
               (merge_sort firestore.newer_first (map_to_list d)) in
  all ≡ₚ filter (wanted level goal) (map_to_list d)
  ∧ StronglySorted created_desc all.
Proof.
  simpl. split.
  - by rewrite merge_sort_Permutation.
  - apply StronglySorted_filter, Sorted_StronglySorted; [apply _|].
    eapply Sorted_weaken; [apply newer_first_created_desc|].
    apply Sorted_merge_sort, _.
Qed.

Lemma get_applications_eq limit level goal st :
  FirestoreDB.get_applications limit level goal st =
  match fault (tick st) with
  | Some message => (Raise (StorageError message), bump st)
  | None =>
      if (0 <=? limit) && (limit <? 2 ^ 31) then
        (FirestoreDB.to_applications
           (take (Z.to_nat limit)
              (filter (wanted level goal)
                 (merge_sort firestore.newer_first (map_to_list (docs st))))),
         bump st)
      else (Raise (StorageError "InvalidArgument"), bump st)
  end.
Proof.
  unfold FirestoreDB.get_applications. rewrite try_reraise. unfold_M.
  rewrite stream_eq. destruct (fault (tick st)); [done|].
  unfold firestore.limit_ok. simpl.
  destruct ((0 <=? limit) && (limit <? 2 ^ 31)); [|done].
  unfold firestore.run_query. simpl.
  erewrite list_filter_iff; [done|].
  intros kd. apply (query_satisfies level goal limit kd).
Qed.

(** The loop over the documents found either builds one record for each
    of them, in order, or raises. *)
Lemma to_applications_Ok l rs :
  FirestoreDB.to_applications l = Ok rs ↔
  Forall2 (λ kd r, FirestoreDB.to_application kd.1 kd.2 = Ok r) l rs.
Proof.
  revert rs. induction l as [|[k d] l IH]; intros rs; simpl.
  - split; [intros [= <-]; constructor | by inversion 1].
  - destruct (FirestoreDB.to_application k d) as [r|e] eqn:Er.
    + destruct (FirestoreDB.to_applications l) as [rs'|e'] eqn:El.
      * split.
        -- intros [= <-]. constructor; [done|]. by apply IH.
        -- inversion 1 as [|? r' ? rs'' Hr Hrs]; subst. simpl in Hr.
           apply IH in Hrs. congruence.
      * split; [done|]. inversion 1 as [|? r' ? rs'' Hr Hrs]; subst.
        apply IH in Hrs. done.
    + split; [done|]. inversion 1 as [|? r' ? rs'' Hr Hrs]; subst.
      simpl in Hr. congruence.
Qed.
End query_facts.

(** ** The handlers *)

Section handler_facts.
Context {emails : models.EmailStr} {env : Environment}.

Lemma to_application_Ok doc_id d r :
  FirestoreDB.to_application doc_id d = Ok r →
  models.fields (doc_fields d) = Some (models.base r)
  ∧ models.id r = doc_id
  ∧ models.created_at r = doc_created_at d
  ∧ models.status r = doc_status d
  ∧ doc_status d ∈ models.STATUSES.
Proof.
  unfold FirestoreDB.to_application, models.RunnerApplication_init.
  destruct (models.fields (doc_fields d)) as [a|]; [|done].
  destruct (models.Literal models.STATUSES (doc_status d)) as [s|] eqn:Es; [|done].
  apply Literal_Some in Es as [-> ?]. by intros [= <-].
Qed.

Lemma to_application_with_status doc_id d r status :
  FirestoreDB.to_application doc_id d = Ok r →
  status ∈ models.STATUSES →
  FirestoreDB.to_application doc_id (with_status status d) =
    Ok {| models.base := models.base r; models.id := models.id r;
          models.created_at := models.created_at r;
          models.status := status |}.
Proof.
  intros (Hf & Hid & Hc & _)%to_application_Ok Hs.
  unfold FirestoreDB.to_application, models.RunnerApplication_init. simpl.
  by rewrite Hf, (Literal_elem _ _ Hs), Hid, Hc.
Qed.

Lemma to_application_bad_status doc_id d status :
  status ∉ models.STATUSES →
  ∃ loc, FirestoreDB.to_application doc_id (with_status status d) =
         Raise (ValidationError loc).
Proof.
  intros Hs. unfold FirestoreDB.to_application, models.RunnerApplication_init.
  simpl. rewrite (Literal_None _ _ Hs).
  destruct (models.fields (doc_fields d)); eauto.
Qed.

Lemma create_application_handler_eq application st :
  main.create_application application st =
  match FirestoreDB.create_application application st with
  | (Raise e, st1) =>
      (Raise (if is_ValueError e then HTTPException 400 (main.str e)
              else HTTPException 500 "Failed to create application"), st1)
  | (Ok app_id, st1) =>
      match FirestoreDB.get_application app_id st1 with
      | (Ok (Some r), st2) => (Ok r, st2)
      | (Ok None, st2) =>
          (Raise (HTTPException 500 "Failed to create application"), st2)
      | (Raise e, st2) =>
          (Raise (if is_ValueError e then HTTPException 400 (main.str e)
                  else HTTPException 500 "Failed to create application"), st2)
      end
  end.
Proof.
  unfold main.create_application. unfold_M.
  destruct (FirestoreDB.create_application application st) as [[app_id|e] st1].
  - destruct (FirestoreDB.get_application app_id st1) as [[[r|]|e] st2]; try done.
    by destruct (is_ValueError e).
  - by destruct (is_ValueError e).
Qed.

Lemma delete_application_handler_eq application_id st :
  main.delete_application application_id st =
  match FirestoreDB.delete_application application_id st with
  | (Ok true, st') => (Ok tt, st')
  | (Ok false, st') =>
      (Raise (HTTPException 404
                ("Application " ++ application_id ++ " not found")), st')
  | (Raise e, st') =>
      (Raise (if is_HTTPException e then e
              else HTTPException 500 "Failed to delete application"), st')
  end.
Proof.
  unfold main.delete_application. unfold_M.
  destruct (FirestoreDB.delete_application application_id st) as [[[|]|e] st'];
    try done.
  by destruct (is_HTTPException e).
Qed.

Lemma list_applications_eq limit level goal st :
  main.list_applications limit level goal st =
  match FirestoreDB.get_applications (default 50 limit) level goal st with
  | (Ok l, st') => (Ok l, st')
  | (Raise e, st') =>
      (Raise (HTTPException 500 "Failed to fetch applications"), st')
  end.
Proof.
  unfold main.list_applications. unfold_M.
  by destruct (FirestoreDB.get_applications _ _ _ _) as [[l|e] st'].
Qed.

Lemma get_stats_eq st :
  main.get_stats st =
  match FirestoreDB.get_applications 1000 None None st with
  | (Ok all_apps, st') =>
      (Ok (foldl main.tally
             {| main.total_applications := List.length all_apps;
                main.by_level := ∅; main.by_goal := ∅; main.by_zone := ∅ |}
             all_apps), st')
  | (Raise e, st') =>
      (Raise (HTTPException 500 "Failed to compute statistics"), st')
  end.
Proof.
  unfold main.get_stats. unfold_M.
  by destruct (FirestoreDB.get_applications _ _ _ _) as [[l|e] st'].
Qed.

(** Creation followed by a read of the new id, when both remote calls go
    through and the kept name has at least two characters. *)
Lemma created_then_fetched kw application st :
  models.fields kw = Some application →
  (2 ≤ String.length (models.name application))%nat →
  reachable st 2 →
  ∃ app_id st1,
    FirestoreDB.create_application application st = (Ok app_id, st1)
    ∧ app_id = firestore.random_chars (choice (tick st)) 20
    ∧ FirestoreDB.get_application app_id st1 =
        (Ok (Some {| models.base := application; models.id := app_id;
                     models.created_at := utcnow (tick st);
                     models.status := "pending" |}), bump st1).
Proof.
  intros Hf Hlen Hr. eexists _, _.
  rewrite create_application_eq, (reachable_here _ _ Hr).
  split; [done|]. split; [done|].
  rewrite get_application_eq. simpl.
  pose proof (Hr 1%nat ltac:(lia)) as Hnext. rewrite Nat.add_1_r in Hnext.
  rewrite Hnext, lookup_insert_eq.
  unfold FirestoreDB.to_application, models.RunnerApplication_init. simpl.
  by rewrite (fields_again _ _ Hf Hlen).
Qed.

(** A body that does not validate never reaches the handler: the answer
    is 422 and nothing has happened. *)
Lemma POST_invalid request st loc :
  models.RunnerApplicationCreate_init (main.kwargs request)
    = Raise (ValidationError loc) →
  main.POST_api_applications request st =
    ({| main.status_code := 422; main.body := main.ValidationDetail loc |}, st).
Proof. unfold main.POST_api_applications. by intros ->. Qed.

Lemma POST_rejects request st :
  ¬ (18 ≤ models.age (main.kwargs request) ≤ 100)
  ∨ models.level (main.kwargs request) ∉ models.LEVELS
  ∨ models.goal (main.kwargs request) ∉ models.GOALS
  ∨ models.dublin_zone (main.kwargs request) ∉ models.ZONES
  ∨ models.availability (main.kwargs request) = [] →
  ∃ loc, main.POST_api_applications request st =
    ({| main.status_code := 422; main.body := main.ValidationDetail loc |}, st).
Proof.
  intros [loc Hloc]%RunnerApplicationCreate_init_rejects.
  exists loc. by apply POST_invalid.
Qed.
End handler_facts.

(** * The claims *)

(** ** GET /health *)

(** C1.  The handler builds the coroutine of [db.get_applications(limit=1)]
    and never awaits it, so the storage adapter is not probed.  In every
    world and every state the answer is 200 with the current timestamp and
    the state is left as it was; this holds in the world [offline] too,
    where the same call raises as soon as it is awaited.  The handler never
    answers 503. *)
Theorem health_check_never_probes :
  (∀ (emails : models.EmailStr) (env : Environment) (st : state),
     main.GET_health st =
       ({| main.status_code := 200;
           main.body :=
             main.Health {| main.health_status := "healthy";
                            main.message := "All systems operational";
                            main.version := "1.0.0";
                            main.timestamp := Some (utcnow (tick st)) |} |},
        st))
  ∧ (FirestoreDB.get_applications
       (emails := worlds.at_sign) (env := worlds.offline) 1 None None
       worlds.empty).1
    = Raise (StorageError "503 failed to connect to all addresses")
  ∧ main.status_code
      (main.GET_health (emails := worlds.at_sign) (env := worlds.offline)
         worlds.empty).1 = 200.
Proof. repeat split. Qed.

(** ** Validation of the name *)

(** C2.  The length bounds of [name] are checked on the value as sent and
    the after-validator then strips it: the body with name [" a"] (two
    characters) is accepted and the name kept is ["a"], of one character.
    The read model, which runs the same field checks on the kept value,
    refuses it. *)
Theorem padded_name_kept_with_one_character :
  ∃ application,
    models.RunnerApplicationCreate_init (emails := worlds.at_sign)
      (worlds.with_name " a" worlds.mario) = Ok application
    ∧ models.name application = "a"
    ∧ String.length (models.name application) = 1%nat
    ∧ models.RunnerApplication_init (emails := worlds.at_sign)
        application "52zwtqnkhebYVSPMJGDA" 1707213600000000 "pending"
      = Raise (ValidationError ["name"]).
Proof. eexists. repeat split. Qed.

(** ** POST /api/applications on a body that does not validate *)

(** C5.  A body with age 17, or with a level outside the literals, is
    refused before the handler runs: the answer is 422, not 400, and the
    state is left as it was. *)
Theorem invalid_payload_answers_422 :
  main.POST_api_applications (emails := worlds.at_sign) (env := worlds.calm)
    {| main.kwargs := worlds.with_age 17 worlds.mario; main.extra := [] |}
    worlds.empty
  = ({| main.status_code := 422; main.body := main.ValidationDetail ["age"] |},
     worlds.empty)
  ∧ main.POST_api_applications (emails := worlds.at_sign) (env := worlds.calm)
      {| main.kwargs := worlds.with_level "elite" worlds.mario; main.extra := [] |}
      worlds.empty
    = ({| main.status_code := 422; main.body := main.ValidationDetail ["level"] |},
       worlds.empty).
Proof. split; reflexivity. Qed.

(** ** Create, then read *)

(** C8.  For the accepted body with name [" a"], creation succeeds and
    stores the instance, but reading the returned id back raises: the
    stored name has one character and the read model refuses it.  No
    record is yielded. *)
Theorem padded_name_is_not_read_back :
  ∃ application app_id st1,
    models.RunnerApplicationCreate_init (emails := worlds.at_sign)
      (worlds.with_name " a" worlds.mario) = Ok application
    ∧ FirestoreDB.create_application (env := worlds.calm)
        application worlds.empty = (Ok app_id, st1)
    ∧ docs st1 !! app_id
      = Some {| doc_fields := application;
                doc_created_at := 1707213600000000;
                doc_status := "pending" |}
    ∧ FirestoreDB.get_application (emails := worlds.at_sign)
        (env := worlds.calm) app_id st1
      = (Raise (ValidationError ["name"]), bump st1).
Proof. eexists _, _, _. repeat split. Qed.

(** ** POST /api/applications on a body that validates *)

(** C4.  For every body that validates, in every world and state: when the
    answer is 201 its record has status ["pending"], the 20-character id
    drawn by the Firestore client (so a non-empty one) and the instant read
    from the server clock, and that record is the one stored under the id;
    keys of the body that the model does not declare, such as a status, an
    id or a timestamp sent by the caller, change neither the answer nor the
    resulting state; and the answer is 201 as soon as the two remote calls
    go through and the kept name has two characters. *)
Theorem created_record_is_server_stamped
    {emails : models.EmailStr} {env : Environment}
    (request : main.payload) (application : models.RunnerApplicationCreate)
    (st : state) :
  models.RunnerApplicationCreate_init (main.kwargs request) = Ok application →
  (∀ resp st',
     main.POST_api_applications request st = (resp, st') →
     main.status_code resp = 201 →
     ∃ r, main.body resp = main.Application r
          ∧ models.status r = "pending"
          ∧ models.id r = firestore.random_chars (choice (tick st)) 20
          ∧ String.length (models.id r) = 20%nat
          ∧ models.id r ≠ EmptyString
          ∧ models.created_at r = utcnow (tick st)
          ∧ docs st' !! models.id r
            = Some {| doc_fields := application;
                      doc_created_at := utcnow (tick st);
                      doc_status := "pending" |})
  ∧ (∀ extra',
       main.POST_api_applications
         {| main.kwargs := main.kwargs request; main.extra := extra' |} st
       = main.POST_api_applications request st)
  ∧ (reachable st 2 →
     (2 ≤ String.length (models.name application))%nat →
     ∃ r st', main.POST_api_applications request st
              = ({| main.status_code := 201; main.body := main.Application r |}, st')).
Proof.
  intros Hvalid. split; [|split].
  - intros resp st'. unfold main.POST_api_applications, main.route.
    rewrite Hvalid, create_application_handler_eq, create_application_eq.
    destruct (fault (tick st)) as [m|]; simpl; [by intros [= <- <-]|].
    rewrite get_application_eq. simpl.
    destruct (fault (S (tick st))) as [m|]; simpl; [by intros [= <- <-]|].
    rewrite lookup_insert_eq.
    destruct (FirestoreDB.to_application _ _) as [r|e] eqn:Er.
    + intros [= <- <-] _. apply to_application_Ok in Er as (_ & Hid & Hc & Hs & _).
      simpl in *. exists r. rewrite Hid. repeat split; try done.
      * apply lookup_insert_eq.
    + destruct (is_ValueError e); by intros [= <- <-].
  - intros extra'. reflexivity.
  - intros Hr Hlen. unfold main.POST_api_applications, main.route.
    rewrite Hvalid, create_application_handler_eq.
    unfold models.RunnerApplicationCreate_init in Hvalid.
    destruct (models.fields (main.kwargs request)) as [a|] eqn:Hf; [|done].
    injection Hvalid as ->.
    destruct (created_then_fetched _ _ st Hf Hlen Hr) as (app_id & st1 & -> & _ & ->).
    eauto.
Qed.

Lemma created_record_is_server_stamped_witness :
  let request :=
    {| main.kwargs := worlds.mario;
       main.extra := [("status", "approved"); ("id", "mine");
                      ("created_at", "1999-01-01T00:00:00Z")] |} in
  models.RunnerApplicationCreate_init (emails := worlds.at_sign)
    (main.kwargs request) = Ok worlds.mario
  ∧ ∃ r st',
      main.POST_api_applications (emails := worlds.at_sign) (env := worlds.calm)
        request worlds.empty
      = ({| main.status_code := 201; main.body := main.Application r |}, st')
      ∧ models.status r = "pending"
      ∧ models.id r = "52zwtqnkhebYVSPMJGDA"
      ∧ models.created_at r = 1707213600000000
      ∧ main.POST_api_applications (emails := worlds.at_sign) (env := worlds.calm)
          {| main.kwargs := worlds.mario; main.extra := [] |} worlds.empty
        = main.POST_api_applications (emails := worlds.at_sign)
            (env := worlds.calm) request worlds.empty.
Proof.
  intros request. split; [reflexivity|].
  destruct (created_record_is_server_stamped
              (emails := worlds.at_sign) (env := worlds.calm)
              request worlds.mario worlds.empty eq_refl)
    as (Hshape & Hextra & Hreach).
  destruct Hreach as (r & st' & Hpost); [by intros i _ | simpl; lia |].
  destruct (Hshape _ _ Hpost eq_refl) as (r' & Hbody & Hs & Hid & _ & _ & Hc & _).
  simpl in Hbody. injection Hbody as <-.
  exists r, st'. split; [exact Hpost|]. do 3 (split; [done|]). apply Hextra.
Defined.

(** ** Delete *)

(** C9.  In every world, a boolean returned by [delete_application] tells
    whether the id was present: [true] comes with the document removed,
    [false] with an absent id and an unchanged collection; when the remote
    calls go through, the boolean is returned, and it is the presence of
    the id.  Over HTTP, deleting a present id answers 204 and removes it,
    deleting an absent id answers 404, and the second of two successive
    deletes of the same id answers 404. *)
Theorem delete_reports_presence
    {env : Environment} (application_id : string) (st : state) :
  (∀ b st',
     FirestoreDB.delete_application application_id st = (Ok b, st') →
     (b = true ∧ is_Some (docs st !! application_id)
      ∧ docs st' = delete application_id (docs st))
     ∨ (b = false ∧ docs st !! application_id = None ∧ docs st' = docs st))
  ∧ (reachable st 2 →
     ∃ st', FirestoreDB.delete_application application_id st
            = (Ok (bool_decide (is_Some (docs st !! application_id))), st'))
  ∧ (reachable st 2 → is_Some (docs st !! application_id) →
     ∃ st', main.DELETE_api_application application_id st
            = ({| main.status_code := 204; main.body := main.NoContent |}, st')
            ∧ docs st' = delete application_id (docs st)
            ∧ docs st' !! application_id = None)
  ∧ (reachable st 1 → docs st !! application_id = None →
     ∃ detail,
       main.DELETE_api_application application_id st
       = ({| main.status_code := 404; main.body := main.Detail detail |}, bump st))
  ∧ (reachable st 3 →
     ∃ first st1 detail st2,
       main.DELETE_api_application application_id st = (first, st1)
       ∧ main.DELETE_api_application application_id st1
         = ({| main.status_code := 404; main.body := main.Detail detail |}, st2)).
Proof.
  assert (Habsent : ∀ s, reachable s 1 → docs s !! application_id = None →
            main.DELETE_api_application application_id s
            = ({| main.status_code := 404;
                  main.body := main.Detail
                    ("Application " ++ application_id ++ " not found") |}, bump s)).
  { intros s Hr Hnone. unfold main.DELETE_api_application, main.route.
    rewrite delete_application_handler_eq, delete_application_eq.
    by rewrite (reachable_here _ _ Hr), Hnone. }
  assert (Hpresent : ∀ d, reachable st 2 → docs st !! application_id = Some d →
            main.DELETE_api_application application_id st
            = ({| main.status_code := 204; main.body := main.NoContent |},
               {| docs := delete application_id (docs st);
                  tick := S (S (tick st)) |})).
  { intros d Hr Hsome. unfold main.DELETE_api_application, main.route.
    rewrite delete_application_handler_eq, delete_application_eq.
    rewrite (reachable_here _ _ Hr), Hsome.
    pose proof (Hr 1%nat ltac:(lia)) as Hnext. rewrite Nat.add_1_r in Hnext.
    by rewrite Hnext. }
  split_and!.
  - intros b st'. rewrite delete_application_eq.
    destruct (fault (tick st)); [done|].
    destruct (docs st !! application_id) as [d|] eqn:Ed.
    + destruct (fault (S (tick st))); [done|]. intros [= <- <-]. left. eauto.
    + intros [= <- <-]. by right.
  - intros Hr. rewrite delete_application_eq, (reachable_here _ _ Hr).
    pose proof (Hr 1%nat ltac:(lia)) as Hnext. rewrite Nat.add_1_r in Hnext.
    destruct (docs st !! application_id) as [d|] eqn:Ed.
    + rewrite Hnext, bool_decide_eq_true_2 by eauto. eauto.
    + rewrite bool_decide_eq_false_2 by (by intros [? ?]). eauto.
  - intros Hr [d Hd]. eexists. rewrite (Hpresent d Hr Hd). simpl.
    split_and!; [done..|]. apply lookup_delete_eq.
  - intros Hr Hnone. eexists. by apply Habsent.
  - intros Hr. destruct (docs st !! application_id) as [d|] eqn:Ed.
    + rewrite (Hpresent d) by (done || by eapply reachable_weaken; [|done]; lia).
      eexists _, _, _, _. split; [done|]. apply Habsent.
      * intros i Hi. simpl. rewrite <-!Nat.add_succ_r. apply Hr. lia.
      * simpl. apply lookup_delete_eq.
    + rewrite Habsent by (done || by eapply reachable_weaken; [|done]; lia).
      eexists _, _, _, _. split; [done|]. apply Habsent; [|done].
      apply reachable_bump. eapply reachable_weaken; [|done]. lia.
Qed.

Lemma delete_reports_presence_witness :
  let st := {| docs := {[ "abc" := worlds.stored worlds.mario 1707213600000000 "pending" ]};
               tick := 0 |} in
  reachable (env := worlds.calm) st 3
  ∧ is_Some (docs st !! "abc")
  ∧ (∃ st', main.DELETE_api_application (env := worlds.calm) "abc" st
            = ({| main.status_code := 204; main.body := main.NoContent |}, st')
            ∧ docs st' !! "abc" = None)
  ∧ (∃ first st1 detail st2,
       main.DELETE_api_application (env := worlds.calm) "abc" st = (first, st1)
       ∧ main.DELETE_api_application (env := worlds.calm) "abc" st1
         = ({| main.status_code := 404; main.body := main.Detail detail |}, st2)).
Proof.
  intros st.
  assert (Hr : reachable (env := worlds.calm) st 3) by (by intros i _).
  assert (Hd : is_Some (docs st !! "abc")) by (by eexists).
  destruct (delete_reports_presence (env := worlds.calm) "abc" st)
    as (_ & _ & Hdel & _ & Htwice).
  split_and!; [done | done | |].
  - destruct Hdel as (st' & Heq & _ & Hgone); [|done|by eauto].
    intros i Hi. apply Hr. lia.
  - by apply Htwice.
Defined.

(** ** Update of the status *)

(** C3, as stated, fails: the write takes any string, but the refreshed
    record is built by the read model, whose [status] is a literal.  With
    the status ["archived"] the document is overwritten and the call raises
    instead of returning the record. *)
Lemma update_status_outside_literals_raises :
  let st := {| docs := {[ "abc" := worlds.stored worlds.mario 1707213600000000 "pending" ]};
               tick := 0 |} in
  FirestoreDB.update_application_status
    (emails := worlds.at_sign) (env := worlds.calm) "abc" "archived" st
  = (Raise (ValidationError ["status"]),
     {| docs := {[ "abc" := worlds.stored worlds.mario 1707213600000000 "archived" ]};
        tick := 3 |}).
Proof. reflexivity. Qed.

(** C3, amended.  For an absent id the result is [None] and the collection
    is unchanged.  For a present id and every status string, the write is
    not guarded by the literals: the document is replaced by one with the
    same fields and the same creation instant and the new status, and no
    other document changes.  The refreshed record is returned when the new
    status is one of pending, approved, rejected and the stored document
    passes the read model; it is the record read before with the status
    replaced.  For a status outside the literals the call raises after the
    write.  In every world, whatever the remote calls do, the collection is
    afterwards either unchanged or changed in the status of that one
    document, and [None] is returned only for an absent id. *)
Theorem update_status_overwrites_status_only
    {emails : models.EmailStr} {env : Environment}
    (application_id status : string) (st : state) :
  (docs st !! application_id = None → reachable st 1 →
   FirestoreDB.update_application_status application_id status st
   = (Ok None, bump st))
  ∧ (∀ d, docs st !! application_id = Some d → reachable st 3 →
     ∃ outcome d' st',
       FirestoreDB.update_application_status application_id status st
       = (outcome, st')
       ∧ docs st' = <[application_id := d']> (docs st)
       ∧ doc_fields d' = doc_fields d
       ∧ doc_created_at d' = doc_created_at d
       ∧ doc_status d' = status
       ∧ (∀ other, other ≠ application_id → docs st' !! other = docs st !! other)
       ∧ (∀ r, status ∈ models.STATUSES →
               FirestoreDB.to_application application_id d = Ok r →
               outcome = Ok (Some {| models.base := models.base r;
                                     models.id := application_id;
                                     models.created_at := doc_created_at d;
                                     models.status := status |}))
       ∧ (status ∉ models.STATUSES →
          ∃ loc, outcome = Raise (ValidationError loc)))
  ∧ (∀ outcome st',
       FirestoreDB.update_application_status application_id status st
       = (outcome, st') →
       (docs st' = docs st
        ∨ ∃ d, docs st !! application_id = Some d
               ∧ docs st' = <[application_id := with_status status d]> (docs st))
       ∧ (outcome = Ok None →
          docs st !! application_id = None ∧ docs st' = docs st)).
Proof.
  split; [|split].
  - intros Hnone Hr. rewrite update_application_status_eq.
    by rewrite (reachable_here _ _ Hr), Hnone.
  - intros d Hd Hr. rewrite update_application_status_eq.
    rewrite (reachable_here _ _ Hr), Hd.
    pose proof (Hr 1%nat ltac:(lia)) as H1. rewrite Nat.add_1_r in H1.
    pose proof (Hr 2%nat ltac:(lia)) as H2.
    replace (tick st + 2)%nat with (S (S (tick st))) in H2 by lia.
    rewrite H1, get_application_eq. simpl. rewrite H2, lookup_insert_eq.
    eexists _, (with_status status d), _. split; [done|]. simpl.
    split_and!; try done.
    + intros other Hne. by rewrite lookup_insert_ne.
    + intros r Hs Hread.
      rewrite (to_application_with_status _ _ _ _ Hread Hs).
      apply to_application_Ok in Hread as (_ & -> & -> & _). done.
    + intros Hs. destruct (to_application_bad_status application_id d _ Hs) as [loc ->].
      eauto.
  - intros outcome st'. rewrite update_application_status_eq.
    destruct (fault (tick st)); [intros [= <- <-]; by split; [left|]|].
    destruct (docs st !! application_id) as [d|] eqn:Ed;
      [|intros [= <- <-]; by split; [left|]].
    destruct (fault (S (tick st))); [intros [= <- <-]; by split; [left|]|].
    rewrite get_application_eq. simpl.
    destruct (fault (S (S (tick st)))); [intros [= <- <-]; split; [right; eauto|done]|].
    rewrite lookup_insert_eq.
    destruct (FirestoreDB.to_application _ _); intros [= <- <-];
      (split; [right; eauto|done]).
Qed.

Lemma update_status_overwrites_status_only_witness :
  let st := {| docs := {[ "abc" := worlds.stored worlds.mario 1707213600000000 "pending" ]};
               tick := 0 |} in
  docs st !! "abc" = Some (worlds.stored worlds.mario 1707213600000000 "pending")
  ∧ docs st !! "xyz" = None
  ∧ reachable (env := worlds.calm) st 3
  ∧ "approved" ∈ models.STATUSES
  ∧ FirestoreDB.update_application_status
      (emails := worlds.at_sign) (env := worlds.calm) "xyz" "approved" st
    = (Ok None, bump st)
  ∧ ∃ st',
      FirestoreDB.update_application_status
        (emails := worlds.at_sign) (env := worlds.calm) "abc" "approved" st
      = (Ok (Some {| models.base := worlds.mario; models.id := "abc";
                     models.created_at := 1707213600000000;
                     models.status := "approved" |}), st')
      ∧ docs st' !! "abc"
        = Some (worlds.stored worlds.mario 1707213600000000 "approved").
Proof.
  intros st.
  assert (Hr : reachable (env := worlds.calm) st 3) by (by intros i _).
  assert (Hs : "approved" ∈ models.STATUSES) by (by apply (bool_decide_unpack _)).
  split_and!; [done | done | done | done | |].
  - apply (update_status_overwrites_status_only
             (emails := worlds.at_sign) (env := worlds.calm) "xyz" "approved" st);
      [done|]. intros i Hi. apply Hr. lia.
  - destruct (update_status_overwrites_status_only
                (emails := worlds.at_sign) (env := worlds.calm) "abc" "approved" st)
      as (_ & Hpresent & _).
    destruct (Hpresent _ eq_refl Hr)
      as (outcome & d' & st' & Heq & Hdocs & Hf & Hc & Hst & _ & Hret & _).
    exists st'. rewrite Heq, (Hret _ Hs eq_refl). split; [done|].
    rewrite Hdocs, lookup_insert_eq. destruct d'; simpl in *. by subst.
Defined.

(** ** Creation is not rolled back *)

(** C10, as stated, fails: when the read of the new record fails with a
    validation error, which is a [ValueError], the handler answers 400 and
    not 500.  The body with name [" a"] is accepted, created, and refused
    by the read model. *)
Lemma failed_read_answers_400 :
  let request := {| main.kwargs := worlds.with_name " a" worlds.mario;
                    main.extra := [] |} in
  ∃ application app_id st1 st2,
    models.RunnerApplicationCreate_init (emails := worlds.at_sign)
      (main.kwargs request) = Ok application
    ∧ FirestoreDB.create_application (env := worlds.calm) application worlds.empty
      = (Ok app_id, st1)
    ∧ FirestoreDB.get_application (emails := worlds.at_sign) (env := worlds.calm)
        app_id st1 = (Raise (ValidationError ["name"]), st2)
    ∧ main.POST_api_applications (emails := worlds.at_sign) (env := worlds.calm)
        request worlds.empty
      = ({| main.status_code := 400; main.body := main.Detail "name" |}, st2)
    ∧ is_Some (docs st2 !! app_id).
Proof. intros request. eexists _, _, _, _. split_and!; try reflexivity. by eexists. Qed.

(** C10, amended.  For every body that validates, if the creation succeeds
    and the read of the new id then returns nothing or raises, the answer
    is an error: 500, unless the exception of the read is a [ValueError],
    which the handler answers with 400.  In each case nothing is undone:
    the state is the one the read left, and the new document is still
    stored under its id. *)
Theorem create_is_not_rolled_back
    {emails : models.EmailStr} {env : Environment}
    (request : main.payload) (application : models.RunnerApplicationCreate)
    (st st1 st2 : state) (app_id : string)
    (outcome : result (option models.RunnerApplication)) :
  models.RunnerApplicationCreate_init (main.kwargs request) = Ok application →
  FirestoreDB.create_application application st = (Ok app_id, st1) →
  FirestoreDB.get_application app_id st1 = (outcome, st2) →
  (∀ r, outcome ≠ Ok (Some r)) →
  ∃ resp,
    main.POST_api_applications request st = (resp, st2)
    ∧ main.status_code resp
      = match outcome with
        | Raise e => if is_ValueError e then 400 else 500
        | Ok _ => 500
        end
    ∧ docs st2 = docs st1
    ∧ docs st2 !! app_id
      = Some {| doc_fields := application;
                doc_created_at := utcnow (tick st);
                doc_status := "pending" |}.
Proof.
  intros Hvalid Hcreate Hget Hfail.
  unfold main.POST_api_applications, main.route.
  rewrite Hvalid, create_application_handler_eq, Hcreate, Hget.
  assert (docs st2 = docs st1
          ∧ docs st1 !! app_id
            = Some {| doc_fields := application;
                      doc_created_at := utcnow (tick st);
                      doc_status := "pending" |}) as [Hsame Hdoc].
  { split.
    - rewrite get_application_eq in Hget.
      destruct (fault (tick st1)); [by injection Hget as _ <-|].
      destruct (docs st1 !! app_id); by injection Hget as _ <-.
    - rewrite create_application_eq in Hcreate.
      destruct (fault (tick st)); [done|]. injection Hcreate as <- <-.
      apply lookup_insert_eq. }
  rewrite Hsame, Hdoc.
  destruct outcome as [[r|]|e].
  - by destruct (Hfail r).
  - eexists. by split_and!.
  - destruct (is_ValueError e); eexists; by split_and!.
Qed.

Lemma create_is_not_rolled_back_witness :
  let request := {| main.kwargs := worlds.mario; main.extra := [] |} in
  let st1 := {| docs := {[ "52zwtqnkhebYVSPMJGDA" :=
                            worlds.stored worlds.mario 1707213600000000 "pending" ]};
                tick := 1 |} in
  models.RunnerApplicationCreate_init (emails := worlds.at_sign)
    (main.kwargs request) = Ok worlds.mario
  ∧ FirestoreDB.create_application (env := worlds.flaky) worlds.mario worlds.empty
    = (Ok "52zwtqnkhebYVSPMJGDA", st1)
  ∧ FirestoreDB.get_application (emails := worlds.at_sign) (env := worlds.flaky)
      "52zwtqnkhebYVSPMJGDA" st1
    = (Raise (StorageError "deadline exceeded"), bump st1)
  ∧ ∃ resp,
      main.POST_api_applications (emails := worlds.at_sign) (env := worlds.flaky)
        request worlds.empty = (resp, bump st1)
      ∧ main.status_code resp = 500
      ∧ docs (bump st1) !! "52zwtqnkhebYVSPMJGDA"
        = Some (worlds.stored worlds.mario 1707213600000000 "pending").
Proof.
  intros request st1. split_and!; [reflexivity..|].
  destruct (create_is_not_rolled_back
              (emails := worlds.at_sign) (env := worlds.flaky)
              request worlds.mario worlds.empty st1 (bump st1)
              "52zwtqnkhebYVSPMJGDA" (Raise (StorageError "deadline exceeded"))
              eq_refl eq_refl eq_refl)
    as (resp & Hpost & Hcode & _ & Hdoc); [done|].
  exists resp. split_and!; done.
Defined.

(** ** GET /api/stats *)

Section tally_facts.
Implicit Types (f : models.RunnerApplication → string) (d : gmap string nat).

Lemma occurrences_cons f k app apps :
  occurrences f k (app :: apps)
  = ((if decide (f app = k) then 1 else 0) + occurrences f k apps)%nat.
Proof. unfold occurrences. rewrite filter_cons. by destruct (decide (f app = k)). Qed.

(** The loop on one mapping: a key gains the number of its occurrences. *)
Lemma count_up_fold f apps d k :
  foldl (λ d app, main.count_up (f app) d) d apps !! k
  = match occurrences f k apps with
    | O => d !! k
    | S _ => Some (default 0%nat (d !! k) + occurrences f k apps)%nat
    end.
Proof.
  revert d. induction apps as [|app apps IH]; intros d; [done|].
  simpl. rewrite IH, occurrences_cons. unfold main.count_up.
  destruct (decide (f app = k)) as [->|Hne].
  - rewrite lookup_insert_eq. simpl.
    destruct (occurrences f k apps); f_equal; lia.
  - by rewrite lookup_insert_ne.
Qed.

Lemma tally_fold s apps :
  foldl main.tally s apps
  = {| main.total_applications := main.total_applications s;
       main.by_level :=
         foldl (λ d app, main.count_up (models.level (models.base app)) d)
               (main.by_level s) apps;
       main.by_goal :=
         foldl (λ d app, main.count_up (models.goal (models.base app)) d)
               (main.by_goal s) apps;
       main.by_zone :=
         foldl (λ d app, main.count_up (models.dublin_zone (models.base app)) d)
               (main.by_zone s) apps |}.
Proof.
  revert s. induction apps as [|app apps IH]; intros s; [by destruct s|].
  simpl. by rewrite IH.
Qed.

Lemma count_up_fold_empty f apps k :
  foldl (λ d app, main.count_up (f app) d) ∅ apps !! k
  = entry (occurrences f k apps).
Proof.
  rewrite count_up_fold, lookup_empty. by destruct (occurrences f k apps).
Qed.
End tally_facts.

(** C7.  Whatever list of records the adapter returns for the limit 1000,
    the answer is 200 and carries: as total, the length of the list; and
    three mappings in which a key is bound exactly when some record has it
    as level, goal or zone, and is then bound to the number of such
    records. *)
Theorem stats_count_the_fetched_records
    {emails : models.EmailStr} {env : Environment}
    (st st' : state) (all_apps : list models.RunnerApplication) :
  FirestoreDB.get_applications 1000 None None st = (Ok all_apps, st') →
  ∃ s,
    main.GET_api_stats st
    = ({| main.status_code := 200; main.body := main.Stats s |}, st')
    ∧ main.total_applications s = List.length all_apps
    ∧ ∀ k,
        main.by_level s !! k
        = entry (occurrences (λ app, models.level (models.base app)) k all_apps)
        ∧ main.by_goal s !! k
          = entry (occurrences (λ app, models.goal (models.base app)) k all_apps)
        ∧ main.by_zone s !! k
          = entry (occurrences (λ app, models.dublin_zone (models.base app)) k all_apps).
Proof.
  intros Hget. unfold main.GET_api_stats, main.route.
  rewrite get_stats_eq, Hget. eexists. split; [done|].
  rewrite tally_fold. simpl. split; [done|].
  intros k. by rewrite !count_up_fold_empty.
Qed.

Lemma stats_count_the_fetched_records_witness :
  let st :=
    {| docs :=
         <["a1" := worlds.stored (worlds.with_level "beginner" worlds.mario) 30 "pending"]>
         (<["b2" := worlds.stored (worlds.with_level "beginner" worlds.mario) 20 "pending"]>
          {[ "c3" := worlds.stored (worlds.with_level "advanced" worlds.mario) 10 "pending" ]});
       tick := 0 |} in
  ∃ all_apps,
    FirestoreDB.get_applications (emails := worlds.at_sign) (env := worlds.calm)
      1000 None None st = (Ok all_apps, bump st)
    ∧ (models.level ∘ models.base) <$> all_apps = ["beginner"; "beginner"; "advanced"]
    ∧ ∃ s,
        main.GET_api_stats (emails := worlds.at_sign) (env := worlds.calm) st
        = ({| main.status_code := 200; main.body := main.Stats s |}, bump st)
        ∧ main.total_applications s = 3%nat
        ∧ main.by_level s !! "beginner" = Some 2%nat
        ∧ main.by_level s !! "advanced" = Some 1%nat
        ∧ main.by_level s !! "intermediate" = None.
Proof.
  intros st. eexists. split; [vm_compute; reflexivity|]. split; [reflexivity|].
  edestruct (stats_count_the_fetched_records
               (emails := worlds.at_sign) (env := worlds.calm) st (bump st))
    as (s & Hstats & Htotal & Hk); [vm_compute; reflexivity|].
  exists s. split; [exact Hstats|]. split; [exact Htotal|].
  split_and!.
  - by destruct (Hk "beginner") as (-> & _).
  - by destruct (Hk "advanced") as (-> & _).
  - by destruct (Hk "intermediate") as (-> & _).
Defined.

(** ** List *)

Section list_facts.
Context {emails : models.EmailStr}.

Lemma to_applications_readable l :
  Forall (λ kd, ∃ r, FirestoreDB.to_application kd.1 kd.2 = Ok r) l →
  ∃ rs, FirestoreDB.to_applications l = Ok rs.
Proof.
  induction 1 as [|[k d] l [r Hr] _ [rs Hrs]]; simpl; [eauto|].
  simpl in Hr. rewrite Hr, Hrs. eauto.
Qed.
End list_facts.

(** C6, as stated, fails on a filter that is given but empty: the adapter
    tests [if level:], so the empty string is no filter at all.  With the
    level filter [""] the record of level ["intermediate"] is returned,
    though its level is not the empty string. *)
Lemma empty_level_filter_selects_everything :
  let st := {| docs := {[ "abc" := worlds.stored worlds.mario 1707213600000000 "pending" ]};
               tick := 0 |} in
  FirestoreDB.get_applications (emails := worlds.at_sign) (env := worlds.calm)
    50 (Some "") None st
  = (Ok [ {| models.base := worlds.mario; models.id := "abc";
             models.created_at := 1707213600000000;
             models.status := "pending" |} ], bump st)
  ∧ models.level worlds.mario = "intermediate"
  ∧ models.level worlds.mario ≠ "".
Proof. intros st. split_and!; [vm_compute; reflexivity | reflexivity | discriminate]. Qed.

(** C6, amended.  In every state there is a list [all] of documents that
    holds exactly the documents of the collection passing the filters in
    force (a level or goal that is given and is not the empty string),
    ordered by creation instant descending, such that: whenever the adapter
    returns a list, in whatever world, that list holds the records of the
    first [limit] elements of [all], one for each and in that order, and
    the collection is untouched; the list is returned, and the list
    endpoint answers 200 with it, as soon as the remote call goes through,
    the limit is one the store accepts and those documents pass the read
    model; and a limit left out of the request counts as 50. *)
Theorem list_is_filtered_ordered_truncated
    {emails : models.EmailStr} {env : Environment}
    (limit : Z) (level goal : option string) (st : state) :
  ∃ all,
    all ≡ₚ filter (wanted level goal) (map_to_list (docs st))
    ∧ StronglySorted created_desc all
    ∧ (∀ l st',
         FirestoreDB.get_applications limit level goal st = (Ok l, st') →
         st' = bump st
         ∧ 0 ≤ limit
         ∧ Forall2 (λ kd r, FirestoreDB.to_application kd.1 kd.2 = Ok r)
                   (take (Z.to_nat limit) all) l)
    ∧ (reachable st 1 →
       0 ≤ limit < 2 ^ 31 →
       Forall (λ kd, ∃ r, FirestoreDB.to_application kd.1 kd.2 = Ok r)
              (take (Z.to_nat limit) all) →
       ∃ l,
         FirestoreDB.get_applications limit level goal st = (Ok l, bump st)
         ∧ main.GET_api_applications (Some limit) level goal st
           = ({| main.status_code := 200; main.body := main.Applications l |},
              bump st))
    ∧ main.GET_api_applications None level goal st
      = main.GET_api_applications (Some 50) level goal st.
Proof.
  destruct (ordered_selection level goal (docs st)) as [Hperm Hsorted].
  eexists. split; [exact Hperm|]. split; [exact Hsorted|].
  split; [|split; [|done]].
  - intros l st'. rewrite get_applications_eq.
    destruct (fault (tick st)); [done|].
    destruct (0 <=? limit) eqn:Hlo; [|done].
    destruct (limit <? 2 ^ 31); [|done]. simpl.
    intros [= Hl <-]. apply Z.leb_le in Hlo.
    split; [done|]. split; [done|]. by apply to_applications_Ok.
  - intros Hr Hlimit [l Hl]%to_applications_readable.
    assert (Hget : FirestoreDB.get_applications limit level goal st
                   = (Ok l, bump st)).
    { rewrite get_applications_eq, (reachable_here _ _ Hr).
      replace (0 <=? limit) with true by (symmetry; apply Z.leb_le; lia).
      replace (limit <? 2 ^ 31) with true by (symmetry; apply Z.ltb_lt; lia).
      simpl. by rewrite Hl. }
    exists l. split; [exact Hget|].
    unfold main.GET_api_applications, main.route.
    rewrite list_applications_eq. simpl. by rewrite Hget.
Qed.

Lemma list_is_filtered_ordered_truncated_witness :
  let st :=
    {| docs :=
         <["a1" := worlds.stored (worlds.with_level "beginner" worlds.mario) 10 "pending"]>
         (<["b2" := worlds.stored (worlds.with_level "advanced" worlds.mario) 20 "approved"]>
          {[ "c3" := worlds.stored (worlds.with_level "beginner" worlds.mario) 30 "pending" ]});
       tick := 0 |} in
  reachable (env := worlds.calm) st 1
  ∧ 0 ≤ 50 < 2 ^ 31
  ∧ ∃ l,
      main.GET_api_applications (emails := worlds.at_sign) (env := worlds.calm)
        (Some 50) (Some "beginner") None st
      = ({| main.status_code := 200; main.body := main.Applications l |}, bump st)
      ∧ models.id <$> l = ["c3"; "a1"]
      ∧ main.GET_api_applications (emails := worlds.at_sign) (env := worlds.calm)
          None (Some "beginner") None st
        = main.GET_api_applications (emails := worlds.at_sign) (env := worlds.calm)
            (Some 50) (Some "beginner") None st.
Proof.
  intros st.
  assert (Hr : reachable (env := worlds.calm) st 1) by (by intros i _).
  assert (Hlimit : 0 ≤ 50 < 2 ^ 31) by lia.
  split; [exact Hr|]. split; [exact Hlimit|].
  destruct (list_is_filtered_ordered_truncated
              (emails := worlds.at_sign) (env := worlds.calm)
              50 (Some "beginner") None st)
    as (all & _ & _ & Hret & Hok & Hdefault).
  assert (Hrun : FirestoreDB.get_applications (emails := worlds.at_sign)
                   (env := worlds.calm) 50 (Some "beginner") None st
                 = (Ok [ {| models.base := worlds.with_level "beginner" worlds.mario;
                            models.id := "c3"; models.created_at := 30;
                            models.status := "pending" |};
                         {| models.base := worlds.with_level "beginner" worlds.mario;
                            models.id := "a1"; models.created_at := 10;
                            models.status := "pending" |} ], bump st))
    by (vm_compute; reflexivity).
  destruct (Hret _ _ Hrun) as (_ & _ & Hrecords).
  destruct (Hok Hr Hlimit) as (l & Hl & Hhttp).
  { clear -Hrecords. induction Hrecords; constructor; eauto. }
  exists l. split; [exact Hhttp|]. split; [|exact Hdefault].
  rewrite Hrun in Hl. by injection Hl as <-.
Defined.


(** * Further properties of the service *)

(** ** The schema of a creation request *)

Section schema_facts.
Context {emails : models.EmailStr}.
Import models.

Lemma rstrip_last s r c :
  rstrip s = r ++ String c EmptyString → isspace c = false.
Proof.
  revert r. induction s as [|a s IH]; intros r; simpl.
  - by destruct r.
  - destruct (rstrip s) as [|b t] eqn:Es.
    + destruct (isspace a) eqn:Ea; [by destruct r|].
      destruct r as [|a' r]; simpl; [by intros [= ->] | by destruct r].
    + destruct r as [|a' r]; simpl; [done|].
      intros [= _ Ht]. by apply (IH r).
Qed.

Lemma lstrip_all_space s :
  Forall (λ c, isspace c = true) (list_ascii_of_string s) →
  lstrip s = EmptyString.
Proof.
  induction s as [|c s IH]; simpl; [done|].
  intros [Hc Hs]%Forall_cons. rewrite Hc. by apply IH.
Qed.

Lemma fields_complete kw e :
  (2 ≤ String.length (name kw) ≤ 100)%nat →
  strip (name kw) ≠ EmptyString →
  validate_email (email kw) = Some e →
  18 ≤ age kw ≤ 100 →
  level kw ∈ LEVELS → goal kw ∈ GOALS →
  availability kw ≠ [] →
  dublin_zone kw ∈ ZONES →
  (∀ s, experience kw = Some s → (String.length s ≤ 500)%nat) →
  (∀ s, current_pace kw = Some s → (String.length s ≤ 20)%nat) →
  fields kw
  = Some {| name := strip (name kw); email := e; age := age kw;
            level := level kw; goal := goal kw;
            availability := availability kw;
            dublin_zone := dublin_zone kw; experience := experience kw;
            current_pace := current_pace kw |}.
Proof.
  intros [Hlo Hhi] Hne He Ha Hl Hg Hav Hz Hex Hcp.
  unfold fields, name_field, str_length_ok, validate_name.
  apply Nat.leb_le in Hlo, Hhi. rewrite Hlo, Hhi. simpl.
  destruct (strip (name kw)) as [|c n] eqn:Es; [done|]. simpl.
  rewrite He. simpl. unfold age_field.
  replace (18 <=? age kw) with true by (symmetry; apply Z.leb_le; lia).
  replace (age kw <=? 100) with true by (symmetry; apply Z.leb_le; lia).
  simpl. rewrite !Literal_elem by done. simpl.
  unfold availability_field, validate_availability.
  destruct (availability kw) as [|x xs]; [done|]. simpl.
  unfold optional_str_field, str_length_ok.
  destruct (experience kw) as [s1|], (current_pace kw) as [s2|]; simpl;
    repeat match goal with
           | Hb : ∀ s, Some ?x = Some s → _ |- _ =>
               specialize (Hb x eq_refl); apply Nat.leb_le in Hb; rewrite Hb
           end; by simpl.
Qed.
End schema_facts.

(** X1.  The creation schema accepts exactly the keyword arguments whose
    name has 2 to 100 characters as sent and is not blank, whose email is
    accepted by the email validator, whose age lies in 18..100, whose level,
    goal and zone are among their literals, whose availability is not empty
    and whose optional texts respect their bounds; the instance built keeps
    every value as sent, except the name, kept stripped, and the email,
    kept as the validator returns it. *)
Theorem creation_schema_accepts_exactly
    {emails : models.EmailStr} (kw a : models.RunnerApplicationCreate) :
  models.RunnerApplicationCreate_init kw = Ok a ↔
  (2 ≤ String.length (models.name kw) ≤ 100)%nat
  ∧ models.strip (models.name kw) ≠ EmptyString
  ∧ models.validate_email (models.email kw) = Some (models.email a)
  ∧ 18 ≤ models.age kw ≤ 100
  ∧ models.level kw ∈ models.LEVELS
  ∧ models.goal kw ∈ models.GOALS
  ∧ models.availability kw ≠ []
  ∧ models.dublin_zone kw ∈ models.ZONES
  ∧ (∀ s, models.experience kw = Some s → (String.length s ≤ 500)%nat)
  ∧ (∀ s, models.current_pace kw = Some s → (String.length s ≤ 20)%nat)
  ∧ a = {| models.name := models.strip (models.name kw);
           models.email := models.email a;
           models.age := models.age kw;
           models.level := models.level kw;
           models.goal := models.goal kw;
           models.availability := models.availability kw;
           models.dublin_zone := models.dublin_zone kw;
           models.experience := models.experience kw;
           models.current_pace := models.current_pace kw |}.
Proof.
  unfold models.RunnerApplicationCreate_init. split.
  - destruct (models.fields kw) as [a'|] eqn:Hf; [|done]. intros [= ->].
    destruct (fields_Some _ _ Hf)
      as (Hn & He & Ha & ? & Hl & ? & Hg & ? & Hav & ? & Hz & ? & Hex & ? & Hcp & ?).
    apply name_field_Some in Hn as (Hs & Hne & ? & _).
    rewrite <-Hs. split_and!; try done; try lia.
    destruct a; simpl in *. by subst.
  - intros (Hlen & Hne & He & Ha & Hl & Hg & Hav & Hz & Hex & Hcp & ->). simpl in *.
    by rewrite (fields_complete kw _ Hlen Hne He Ha Hl Hg Hav Hz Hex Hcp).
Qed.

(** X2.  The name validator keeps the stripped value: what it returns is
    not empty, is not longer than the value sent, neither begins nor ends
    with a whitespace character, and is returned unchanged when validated
    again.  A value made of whitespace only is refused, by the validator
    and so by the field, whatever its length. *)
Theorem validate_name_keeps_stripped (v : string) :
  (∀ n, models.validate_name v = Some n →
     n = models.strip v
     ∧ n ≠ EmptyString
     ∧ (String.length n ≤ String.length v)%nat
     ∧ (∀ c r, n = String c r → models.isspace c = false)
     ∧ (∀ r c, n = r ++ String c EmptyString → models.isspace c = false)
     ∧ models.validate_name n = Some n)
  ∧ (Forall (λ c, models.isspace c = true) (list_ascii_of_string v) →
     models.validate_name v = None ∧ models.name_field v = None).
Proof.
  split.
  - intros n [-> Hne]%validate_name_Some. split_and!; try done.
    + apply strip_length.
    + intros c r Hn.
      pose proof (lstrip_rstrip (models.lstrip v) (lstrip_idem v)) as Hl.
      fold (models.strip v) in Hl. rewrite Hn in Hl.
      by apply lstrip_head in Hl.
    + intros r c Hn. by apply (rstrip_last (models.lstrip v) r c).
    + unfold models.validate_name. rewrite strip_idem.
      by destruct (models.strip v).
  - intros Hall.
    assert (models.validate_name v = None) as Hnone.
    { unfold models.validate_name, models.strip.
      by rewrite (lstrip_all_space _ Hall). }
    split; [done|]. unfold models.name_field. rewrite Hnone.
    by destruct (models.str_length_ok _ _ _).
Qed.

Lemma validate_name_keeps_stripped_witness :
  models.validate_name "  Mario Rossi " = Some "Mario Rossi"
  ∧ models.validate_name "Mario Rossi" = Some "Mario Rossi"
  ∧ Forall (λ c, models.isspace c = true) (list_ascii_of_string "    ")
  ∧ models.name_field "    " = None.
Proof.
  destruct (validate_name_keeps_stripped "  Mario Rossi ") as [Hkept _].
  destruct (Hkept "Mario Rossi" eq_refl) as (_ & _ & _ & _ & _ & Hagain).
  destruct (validate_name_keeps_stripped "    ") as [_ Hblank].
  assert (Hall : Forall (λ c, models.isspace c = true) (list_ascii_of_string "    "))
    by (repeat constructor).
  split_and!; [reflexivity | exact Hagain | exact Hall | by apply Hblank].
Defined.

(** X3.  An instance built by the creation schema passes the read model
    again exactly when its kept name has at least two characters and the
    status is one of pending, approved, rejected; the record built then
    holds the instance unchanged, with the id, instant and status given. *)
Theorem validated_instance_reads_back
    {emails : models.EmailStr} (kw a : models.RunnerApplicationCreate)
    (doc_id status : string) (created : datetime) :
  models.RunnerApplicationCreate_init kw = Ok a →
  ((∃ r, models.RunnerApplication_init (models.model_dump a) doc_id created status
         = Ok r)
   ↔ (2 ≤ String.length (models.name a))%nat ∧ status ∈ models.STATUSES)
  ∧ (∀ r, models.RunnerApplication_init (models.model_dump a) doc_id created status
          = Ok r →
          r = {| models.base := a; models.id := doc_id;
                 models.created_at := created; models.status := status |}).
Proof.
  unfold models.RunnerApplicationCreate_init, models.model_dump.
  destruct (models.fields kw) as [a'|] eqn:Hf; [|done]. intros [= ->].
  assert (Hback : ∀ b, models.fields a = Some b →
                       (2 ≤ String.length (models.name a))%nat ∧ b = a).
  { intros b Hb.
    destruct (fields_Some _ _ Hb) as (Hn & _).
    apply name_field_Some in Hn as (_ & _ & [Hlo _] & _).
    split; [done|]. rewrite (fields_again _ _ Hf Hlo) in Hb. by injection Hb. }
  unfold models.RunnerApplication_init. split; [split|].
  - intros [r Hr].
    destruct (models.fields a) as [b|] eqn:Hb; [|done].
    destruct (models.Literal models.STATUSES status) as [s|] eqn:Hs; [|done].
    apply Literal_Some in Hs as [_ ?]. by destruct (Hback b eq_refl).
  - intros [Hlo Hs]. rewrite (fields_again _ _ Hf Hlo), (Literal_elem _ _ Hs). eauto.
  - intros r.
    destruct (models.fields a) as [b|] eqn:Hb; [|done].
    destruct (models.Literal models.STATUSES status) as [s|] eqn:Hs; [|done].
    apply Literal_Some in Hs as [-> _]. destruct (Hback b eq_refl) as [_ ->].
    by intros [= <-].
Qed.

Lemma validated_instance_reads_back_witness :
  models.RunnerApplicationCreate_init (emails := worlds.at_sign) worlds.mario
  = Ok worlds.mario
  ∧ models.RunnerApplication_init (emails := worlds.at_sign)
      (models.model_dump worlds.mario) "abc" 7 "approved"
    = Ok {| models.base := worlds.mario; models.id := "abc";
            models.created_at := 7; models.status := "approved" |}.
Proof.
  split; [reflexivity|].
  destruct (validated_instance_reads_back (emails := worlds.at_sign)
              worlds.mario worlds.mario "abc" "approved" 7 eq_refl)
    as [[_ Hex] Hrec].
  destruct Hex as [r Hr].
  { split; [simpl; lia | by apply (bool_decide_unpack _)]. }
  by rewrite Hr, (Hrec r Hr).
Defined.

(** ** Reading one application *)

Section read_facts.
Context {emails : models.EmailStr} {env : Environment}.

Lemma to_application_Raise doc_id d e :
  FirestoreDB.to_application doc_id d = Raise e → ∃ loc, e = ValidationError loc.
Proof.
  unfold FirestoreDB.to_application, models.RunnerApplication_init.
  destruct (models.fields (doc_fields d));
    [destruct (models.Literal models.STATUSES (doc_status d))|];
    intros [= <-]; eauto.
Qed.

Lemma get_application_handler_eq application_id st :
  main.get_application application_id st =
  match FirestoreDB.get_application application_id st with
  | (Ok (Some r), st') => (Ok r, st')
  | (Ok None, st') =>
      (Raise (HTTPException 404
                ("Application " ++ application_id ++ " not found")), st')
  | (Raise e, st') =>
      (Raise (if is_HTTPException e then e
              else HTTPException 500 "Failed to fetch application"), st')
  end.
Proof.
  unfold main.get_application. unfold_M.
  destruct (FirestoreDB.get_application application_id st) as [[[r|]|e] st'];
    try done.
  by destruct (is_HTTPException e).
Qed.

(** The route of GET /api/applications/{id}, by cases on the world and the
    collection. *)
Lemma GET_api_application_eq application_id st :
  main.GET_api_application application_id st =
  (match fault (tick st) with
   | Some _ =>
       {| main.status_code := 500;
          main.body := main.Detail "Failed to fetch application" |}
   | None =>
       match docs st !! application_id with
       | None =>
           {| main.status_code := 404;
              main.body := main.Detail
                ("Application " ++ application_id ++ " not found") |}
       | Some d =>
           match FirestoreDB.to_application application_id d with
           | Ok r => {| main.status_code := 200; main.body := main.Application r |}
           | Raise _ =>
               {| main.status_code := 500;
                  main.body := main.Detail "Failed to fetch application" |}
           end
       end
   end, bump st).
Proof.
  unfold main.GET_api_application, main.route.
  rewrite get_application_handler_eq, get_application_eq.
  destruct (fault (tick st)); [done|].
  destruct (docs st !! application_id) as [d|]; [|done].
  destruct (FirestoreDB.to_application application_id d) as [r|e] eqn:Er; [done|].
  by destruct (to_application_Raise _ _ _ Er) as [loc ->].
Qed.
End read_facts.



(** X5.  GET /api/applications/{id} answers 404 for an absent id, 200 with
    the record for a document that passes the read model, and 500 with a
    fixed detail both when the remote call fails and when the document is
    present but does not pass the read model.  In each case one remote
    call is made and the collection is left as it was. *)
Theorem GET_application_by_id
    {emails : models.EmailStr} {env : Environment}
    (application_id : string) (st : state) :
  (fault (tick st) = None → docs st !! application_id = None →
   ∃ detail,
     main.GET_api_application application_id st
     = ({| main.status_code := 404; main.body := main.Detail detail |}, bump st))
  ∧ (∀ d r, fault (tick st) = None → docs st !! application_id = Some d →
       FirestoreDB.to_application application_id d = Ok r →
       main.GET_api_application application_id st
       = ({| main.status_code := 200; main.body := main.Application r |}, bump st))
  ∧ (∀ d, fault (tick st) = None → docs st !! application_id = Some d →
       (∀ r, FirestoreDB.to_application application_id d ≠ Ok r) →
       main.GET_api_application application_id st
       = ({| main.status_code := 500;
             main.body := main.Detail "Failed to fetch application" |}, bump st))
  ∧ (∀ message, fault (tick st) = Some message →
       main.GET_api_application application_id st
       = ({| main.status_code := 500;
             main.body := main.Detail "Failed to fetch application" |}, bump st)).
Proof.
  rewrite GET_api_application_eq. split_and!.
  - intros -> ->. eauto.
  - by intros d r -> -> ->.
  - intros d -> -> Hbad.
    destruct (FirestoreDB.to_application application_id d) as [r|e]; [|done].
    by destruct (Hbad r).
  - by intros m ->.
Qed.

Lemma GET_application_by_id_witness :
  let st := {| docs := {[ "abc" := worlds.stored worlds.mario 1707213600000000 "archived" ]};
               tick := 0 |} in
  fault (Environment := worlds.calm) (tick st) = None
  ∧ docs st !! "abc"
    = Some (worlds.stored worlds.mario 1707213600000000 "archived")
  ∧ docs st !! "xyz" = None
  ∧ main.GET_api_application (emails := worlds.at_sign) (env := worlds.calm)
      "abc" st
    = ({| main.status_code := 500;
          main.body := main.Detail "Failed to fetch application" |}, bump st)
  ∧ ∃ detail,
      main.GET_api_application (emails := worlds.at_sign) (env := worlds.calm)
        "xyz" st
      = ({| main.status_code := 404; main.body := main.Detail detail |}, bump st).
Proof.
  intros st.
  destruct (GET_application_by_id (emails := worlds.at_sign) (env := worlds.calm)
              "abc" st) as (_ & _ & Hbad & _).
  destruct (GET_application_by_id (emails := worlds.at_sign) (env := worlds.calm)
              "xyz" st) as (Habsent & _).
  split_and!; [reflexivity | reflexivity | reflexivity | |].
  - apply (Hbad _ eq_refl eq_refl). intros r. discriminate.
  - by apply Habsent.
Defined.

(** ** The routes as a whole *)



(** X7.  The routes that read leave the collection as it was, in every
    world and whatever they answer: the list, the read of one application,
    the statistics and the health check. *)
Theorem reading_routes_change_nothing
    {emails : models.EmailStr} {env : Environment} (st : state) :
  (∀ limit level goal,
     docs (main.GET_api_applications limit level goal st).2 = docs st)
  ∧ (∀ application_id,
       docs (main.GET_api_application application_id st).2 = docs st)
  ∧ docs (main.GET_api_stats st).2 = docs st
  ∧ main.GET_health st = ((main.GET_health st).1, st).
Proof.
  split_and!.
  - intros limit level goal. unfold main.GET_api_applications, main.route.
    rewrite list_applications_eq, get_applications_eq.
    destruct (fault (tick st)); [done|].
    destruct ((0 <=? default 50 limit) && (default 50 limit <? 2 ^ 31)); [|done].
    by destruct (FirestoreDB.to_applications _).
  - intros application_id. by rewrite GET_api_application_eq.
  - unfold main.GET_api_stats, main.route.
    rewrite get_stats_eq, get_applications_eq.
    destruct (fault (tick st)); [done|]. simpl.
    by destruct (FirestoreDB.to_applications _).
  - reflexivity.
Qed.

(** X8.  The routes that write touch one document at most.  Creation
    leaves every document but the one under the id drawn as it was, adds
    one document at most, and writes nothing when its first remote call
    fails; deletion leaves every document but the one named as it was and
    adds none. *)
Theorem writing_routes_touch_one_document
    {emails : models.EmailStr} {env : Environment} (st : state) :
  (∀ request other,
     other ≠ firestore.random_chars (choice (tick st)) 20 →
     docs (main.POST_api_applications request st).2 !! other = docs st !! other)
  ∧ (∀ request,
       (size (docs (main.POST_api_applications request st).2)
        ≤ S (size (docs st)))%nat)
  ∧ (∀ request message,
       fault (tick st) = Some message →
       docs (main.POST_api_applications request st).2 = docs st)
  ∧ (∀ application_id other,
       other ≠ application_id →
       docs (main.DELETE_api_application application_id st).2 !! other
       = docs st !! other)
  ∧ (∀ application_id,
       (size (docs (main.DELETE_api_application application_id st).2)
        ≤ size (docs st))%nat).
Proof.
  assert (Hpost : ∀ request,
            docs (main.POST_api_applications request st).2 = docs st
            ∨ (fault (tick st) = None
               ∧ ∃ d, docs (main.POST_api_applications request st).2
                      = <[firestore.random_chars (choice (tick st)) 20 := d]>
                          (docs st))).
  { intros request. unfold main.POST_api_applications.
    destruct (models.RunnerApplicationCreate_init (main.kwargs request))
      as [application|e]; [|by left].
    unfold main.route.
    rewrite create_application_handler_eq, create_application_eq.
    destruct (fault (tick st)); [by left|]. right. split; [done|].
    rewrite get_application_eq. simpl.
    destruct (fault (S (tick st))); [simpl; eauto|].
    rewrite lookup_insert_eq.
    destruct (FirestoreDB.to_application _ _) as [r|e];
      [|destruct (is_ValueError e)]; simpl; eauto. }
  assert (Hdel : ∀ application_id,
            docs (main.DELETE_api_application application_id st).2 = docs st
            ∨ docs (main.DELETE_api_application application_id st).2
              = delete application_id (docs st)).
  { intros application_id. unfold main.DELETE_api_application, main.route.
    rewrite delete_application_handler_eq, delete_application_eq.
    destruct (fault (tick st)); [by left|].
    destruct (docs st !! application_id); [|by left].
    destruct (fault (S (tick st))); [by left | by right]. }
  split_and!.
  - intros request other Hne.
    destruct (Hpost request) as [->|(_ & d & ->)]; [done|].
    by rewrite lookup_insert_ne.
  - intros request. destruct (Hpost request) as [->|(_ & d & ->)]; [lia|].
    rewrite map_size_insert. destruct (docs st !! _); simpl; lia.
  - intros request message Hfault.
    destruct (Hpost request) as [->|(Hnone & _)]; [done|congruence].
  - intros application_id other Hne.
    destruct (Hdel application_id) as [->| ->]; [done|].
    by rewrite lookup_delete_ne.
  - intros application_id. destruct (Hdel application_id) as [->| ->]; [done|].
    rewrite <-!length_map_to_list.
    destruct (docs st !! application_id) as [d|] eqn:Ed.
    + rewrite <-(insert_delete_id (docs st) application_id d Ed) at 2.
      rewrite map_to_list_insert by apply lookup_delete_eq. simpl. lia.
    + by rewrite delete_id.
Qed.

Lemma writing_routes_touch_one_document_witness :
  let st := {| docs := {[ "abc" := worlds.stored worlds.mario 1707213600000000 "pending" ]};
               tick := 0 |} in
  let request := {| main.kwargs := worlds.mario; main.extra := [] |} in
  "abc" ≠ firestore.random_chars (choice (Environment := worlds.calm) (tick st)) 20
  ∧ "abc" ≠ "xyz"
  ∧ docs (main.POST_api_applications (emails := worlds.at_sign)
            (env := worlds.calm) request st).2 !! "abc"
    = docs st !! "abc"
  ∧ docs (main.DELETE_api_application (env := worlds.calm) "xyz" st).2 !! "abc"
    = docs st !! "abc"
  ∧ fault (Environment := worlds.offline) (tick st)
    = Some "503 failed to connect to all addresses"
  ∧ docs (main.POST_api_applications (emails := worlds.at_sign)
            (env := worlds.offline) request st).2 = docs st.
Proof.
  intros st request.
  destruct (writing_routes_touch_one_document
              (emails := worlds.at_sign) (env := worlds.calm) st)
    as (Hpost & _ & _ & Hdel & _).
  destruct (writing_routes_touch_one_document
              (emails := worlds.at_sign) (env := worlds.offline) st)
    as (_ & _ & Hfail & _).
  assert (H1 : "abc" ≠ firestore.random_chars
                         (choice (Environment := worlds.calm) (tick st)) 20)
    by discriminate.
  assert (H2 : "abc" ≠ "xyz") by discriminate.
  split_and!; [exact H1 | exact H2 | by apply Hpost | by apply Hdel
              | reflexivity | by eapply Hfail].
Defined.

(** ** What a list holds *)

Section selection_facts.
Context {emails : models.EmailStr} {env : Environment}.

Lemma elem_of_selection level goal (m : gmap string document) kd :
  kd ∈ filter (wanted level goal) (merge_sort firestore.newer_first (map_to_list m))
  ↔ wanted level goal kd ∧ m !! kd.1 = Some kd.2.
Proof.
  rewrite list_elem_of_filter, merge_sort_Permutation.
  destruct kd as [k d]. by rewrite elem_of_map_to_list.
Qed.

Lemma NoDup_selection level goal (m : gmap string document) n :
  NoDup ((take n (filter (wanted level goal)
                    (merge_sort firestore.newer_first (map_to_list m)))).*1).
Proof.
  eapply sublist_NoDup.
  - assert (NoDup ((merge_sort firestore.newer_first (map_to_list m)).*1)) as Hnd.
    { rewrite merge_sort_Permutation. apply NoDup_fst_map_to_list. }
    exact Hnd.
  - apply fmap_sublist. etrans; [apply sublist_take | apply sublist_filter].
Qed.

Lemma length_selection level goal (m : gmap string document) :
  (List.length (filter (wanted level goal)
                  (merge_sort firestore.newer_first (map_to_list m)))
   ≤ size m)%nat.
Proof.
  etrans; [apply length_filter|].
  by rewrite merge_sort_Permutation, length_map_to_list.
Qed.

Lemma to_applications_Raise l k d :
  (k, d) ∈ l → (∀ r, FirestoreDB.to_application k d ≠ Ok r) →
  ∃ loc, FirestoreDB.to_applications l = Raise (ValidationError loc).
Proof.
  intros Hin Hbad. induction l as [|[k' d'] l IH]; [by inversion Hin|].
  simpl. destruct (FirestoreDB.to_application k' d') as [r|e] eqn:Er.
  - apply elem_of_cons in Hin as [[= -> ->]|Hin]; [by destruct (Hbad r)|].
    destruct (IH Hin) as [loc ->]. eauto.
  - destruct (to_application_Raise _ _ _ Er) as [loc ->]. eauto.
Qed.

Lemma Forall2_transfer {A B} (P : A → B → Prop) (Q : A → Prop) (Q' : B → Prop) l k :
  (∀ x y, P x y → Q x → Q' y) → Forall2 P l k → Forall Q l → Forall Q' k.
Proof.
  intros HPQ. induction 1 as [|x y l k Hxy _ IH]; [constructor|].
  intros [Hx Hl]%Forall_cons. constructor; eauto.
Qed.

Lemma StronglySorted_transfer {A B} (P : A → B → Prop)
    (R : relation A) (R' : relation B) l k :
  (∀ x1 x2 y1 y2, P x1 y1 → P x2 y2 → R x1 x2 → R' y1 y2) →
  Forall2 P l k → StronglySorted R l → StronglySorted R' k.
Proof.
  intros HR. induction 1 as [|x y l k Hxy Hlk IH]; [constructor|].
  intros [Hl Hx]%StronglySorted_inv. constructor; [by apply IH|].
  clear IH Hl. induction Hlk as [|x' y' l k Hxy' _ IH]; [constructor|].
  apply Forall_cons in Hx as [Hx' Hx]. constructor; eauto.
Qed.

(** A record read from a document holds values that the schema admits. *)
Lemma to_application_admitted doc_id d r :
  FirestoreDB.to_application doc_id d = Ok r →
  models.level (models.base r) = models.level (doc_fields d)
  ∧ models.goal (models.base r) = models.goal (doc_fields d)
  ∧ models.level (models.base r) ∈ models.LEVELS
  ∧ models.goal (models.base r) ∈ models.GOALS
  ∧ models.dublin_zone (models.base r) ∈ models.ZONES.
Proof.
  intros (Hf & _)%to_application_Ok.
  destruct (fields_Some _ _ Hf)
    as (_ & _ & _ & _ & Hl & ? & Hg & ? & _ & _ & Hz & ? & _).
  rewrite Hl, Hg, Hz. by split_and!.
Qed.
End selection_facts.

(** X9.  Whatever list [get_applications] returns, in every world: it has
    at most [limit] records; no id occurs twice; every record is the read
    of the document stored under its id; a level or goal filter that is
    given and not empty holds of every record; the records come by
    creation instant descending; and each has a status among the
    literals. *)
Theorem listed_records_match_the_collection
    {emails : models.EmailStr} {env : Environment}
    (limit : Z) (level goal : option string) (st st' : state)
    (l : list models.RunnerApplication) :
  FirestoreDB.get_applications limit level goal st = (Ok l, st') →
  (List.length l ≤ Z.to_nat limit)%nat
  ∧ NoDup (models.id <$> l)
  ∧ Forall (λ r, ∃ d, docs st !! models.id r = Some d
                      ∧ FirestoreDB.to_application (models.id r) d = Ok r) l
  ∧ (∀ v, FirestoreDB.truthy level = Some v →
          Forall (λ r, models.level (models.base r) = v) l)
  ∧ (∀ v, FirestoreDB.truthy goal = Some v →
          Forall (λ r, models.goal (models.base r) = v) l)
  ∧ StronglySorted (λ r1 r2, models.created_at r2 ≤ models.created_at r1) l
  ∧ Forall (λ r, models.status r ∈ models.STATUSES) l.
Proof.
  rewrite get_applications_eq.
  destruct (fault (tick st)); [done|].
  destruct ((0 <=? limit) && (limit <? 2 ^ 31)); [|done].
  intros [= Hl _]. apply to_applications_Ok in Hl.
  set (n := Z.to_nat limit) in *.
  set (all := filter (wanted level goal)
                (merge_sort firestore.newer_first (map_to_list (docs st)))) in *.
  assert (Hin : Forall (λ kd, wanted level goal kd ∧ docs st !! kd.1 = Some kd.2)
                       (take n all)).
  { apply Forall_forall. intros kd Hkd. apply elem_of_selection.
    by apply (subseteq_take n all). }
  assert (Hids : models.id <$> l = (take n all).*1).
  { clear -Hl. induction Hl as [|kd r ds l Hr _ IH]; [done|].
    apply to_application_Ok in Hr as (_ & Hid & _).
    rewrite !fmap_cons. by rewrite Hid, IH. }
  split_and!.
  - rewrite <-(Forall2_length _ _ _ Hl), length_take. lia.
  - rewrite Hids. apply NoDup_selection.
  - eapply Forall2_transfer; [|exact Hl|exact Hin].
    intros [k d] r Hr [_ Hd]. simpl in *.
    pose proof (to_application_Ok _ _ _ Hr) as (_ & Hid & _).
    exists d. by rewrite Hid.
  - intros v Hv. eapply Forall2_transfer; [|exact Hl|exact Hin].
    intros [k d] r Hr [[Hw _] _]. simpl in *. rewrite Hv in Hw.
    destruct (to_application_admitted _ _ _ Hr) as (-> & _). done.
  - intros v Hv. eapply Forall2_transfer; [|exact Hl|exact Hin].
    intros [k d] r Hr [[_ Hw] _]. simpl in *. rewrite Hv in Hw.
    destruct (to_application_admitted _ _ _ Hr) as (_ & -> & _). done.
  - eapply (StronglySorted_transfer _ created_desc); [|exact Hl|].
    + intros [k1 d1] [k2 d2] r1 r2 H1 H2. unfold created_desc. simpl.
      apply to_application_Ok in H1 as (_ & _ & -> & _).
      by apply to_application_Ok in H2 as (_ & _ & -> & _).
    + apply StronglySorted_take.
      by destruct (ordered_selection level goal (docs st)).
  - eapply Forall2_transfer; [|exact Hl|exact Hin].
    intros [k d] r Hr _. apply to_application_Ok in Hr as (_ & _ & _ & -> & ?). done.
Qed.

Lemma listed_records_match_the_collection_witness :
  let st :=
    {| docs :=
         <["a1" := worlds.stored (worlds.with_level "beginner" worlds.mario) 10 "pending"]>
         (<["b2" := worlds.stored (worlds.with_level "advanced" worlds.mario) 20 "approved"]>
          {[ "c3" := worlds.stored (worlds.with_level "beginner" worlds.mario) 30 "pending" ]});
       tick := 0 |} in
  ∃ l,
    FirestoreDB.get_applications (emails := worlds.at_sign) (env := worlds.calm)
      1 (Some "beginner") None st = (Ok l, bump st)
    ∧ models.id <$> l = ["c3"]
    ∧ (List.length l ≤ 1)%nat
    ∧ Forall (λ r, models.level (models.base r) = "beginner") l.
Proof.
  intros st. eexists. split; [vm_compute; reflexivity|]. split; [reflexivity|].
  edestruct (listed_records_match_the_collection
               (emails := worlds.at_sign) (env := worlds.calm)
               1 (Some "beginner") None st (bump st))
    as (Hlen & _ & _ & Hlevel & _); [vm_compute; reflexivity|].
  split; [exact Hlen | by apply Hlevel].
Defined.

(** X10.  One document that does not pass the read model makes the whole
    list fail: when the remote call goes through, the limit admits the
    whole collection and a document passing the filters is unreadable,
    [get_applications] raises a validation error and the list endpoint
    answers 500; with at most 1000 documents the statistics answer 500 as
    well.  The collection is left as it was. *)
Theorem unreadable_document_fails_the_list
    {emails : models.EmailStr} {env : Environment}
    (limit : Z) (level goal : option string) (st : state)
    (doc_id : string) (d : document) :
  reachable st 1 →
  0 ≤ limit < 2 ^ 31 →
  (size (docs st) ≤ Z.to_nat limit)%nat →
  docs st !! doc_id = Some d →
  wanted level goal (doc_id, d) →
  (∀ r, FirestoreDB.to_application doc_id d ≠ Ok r) →
  (∃ loc, FirestoreDB.get_applications limit level goal st
          = (Raise (ValidationError loc), bump st))
  ∧ main.GET_api_applications (Some limit) level goal st
    = ({| main.status_code := 500;
          main.body := main.Detail "Failed to fetch applications" |}, bump st)
  ∧ ((size (docs st) ≤ 1000)%nat →
     main.GET_api_stats st
     = ({| main.status_code := 500;
           main.body := main.Detail "Failed to compute statistics" |}, bump st)).
Proof.
  intros Hr Hlimit Hsize Hd Hw Hbad.
  assert (Hraise : ∀ n lv gl, (0 ≤ n < 2 ^ 31) → (size (docs st) ≤ Z.to_nat n)%nat →
            wanted lv gl (doc_id, d) →
            ∃ loc, FirestoreDB.get_applications n lv gl st
                   = (Raise (ValidationError loc), bump st)).
  { intros n lv gl Hn Hsz Hwanted.
    rewrite get_applications_eq, (reachable_here _ _ Hr).
    replace (0 <=? n) with true by (symmetry; apply Z.leb_le; lia).
    replace (n <? 2 ^ 31) with true by (symmetry; apply Z.ltb_lt; lia).
    simpl. rewrite take_ge by (etrans; [apply length_selection | exact Hsz]).
    destruct (to_applications_Raise
                (filter (wanted lv gl)
                   (merge_sort firestore.newer_first (map_to_list (docs st))))
                doc_id d) as [loc ->]; [|done|eauto].
    by apply elem_of_selection. }
  split_and!.
  - by apply Hraise.
  - destruct (Hraise limit level goal Hlimit Hsize Hw) as [loc Hget].
    unfold main.GET_api_applications, main.route.
    rewrite list_applications_eq. simpl. by rewrite Hget.
  - intros Hk. destruct (Hraise 1000 None None) as [loc Hget]; [lia|done|done|].
    unfold main.GET_api_stats, main.route. by rewrite get_stats_eq, Hget.
Qed.

Lemma unreadable_document_fails_the_list_witness :
  let request := {| main.kwargs := worlds.with_name " a" worlds.mario;
                    main.extra := [] |} in
  let st := (main.POST_api_applications (emails := worlds.at_sign)
               (env := worlds.calm) request worlds.empty).2 in
  let d := worlds.stored (worlds.with_name "a" worlds.mario) 1707213600000000
             "pending" in
  reachable (env := worlds.calm) st 1
  ∧ 0 ≤ 50 < 2 ^ 31
  ∧ (size (docs st) ≤ Z.to_nat 50)%nat
  ∧ docs st !! "52zwtqnkhebYVSPMJGDA" = Some d
  ∧ wanted None None ("52zwtqnkhebYVSPMJGDA", d)
  ∧ main.GET_api_applications (emails := worlds.at_sign) (env := worlds.calm)
      (Some 50) None None st
    = ({| main.status_code := 500;
          main.body := main.Detail "Failed to fetch applications" |}, bump st)
  ∧ main.GET_api_stats (emails := worlds.at_sign) (env := worlds.calm) st
    = ({| main.status_code := 500;
          main.body := main.Detail "Failed to compute statistics" |}, bump st).
Proof.
  intros request st d.
  assert (Hr : reachable (env := worlds.calm) st 1) by (by intros i _).
  assert (Hlimit : 0 ≤ 50 < 2 ^ 31) by lia.
  assert (Hsize : (size (docs st) ≤ Z.to_nat 50)%nat) by (vm_compute; lia).
  assert (Hd : docs st !! "52zwtqnkhebYVSPMJGDA" = Some d) by reflexivity.
  assert (Hw : wanted None None ("52zwtqnkhebYVSPMJGDA", d)) by (by split).
  destruct (unreadable_document_fails_the_list
              (emails := worlds.at_sign) (env := worlds.calm)
              50 None None st "52zwtqnkhebYVSPMJGDA" d Hr Hlimit Hsize Hd Hw)
    as (_ & Hlist & Hstats); [intros r; discriminate|].
  split; [exact Hr|]. split; [exact Hlimit|]. split; [exact Hsize|].
  split; [exact Hd|]. split; [exact Hw|]. split; [exact Hlist|].
  apply Hstats. vm_compute. lia.
Defined.

(** ** What the statistics add up to *)

Section sum_facts.
Implicit Types (f : models.RunnerApplication → string) (ks : list string).

Lemma sum_list_fmap_plus {A} (g h : A → nat) (l : list A) :
  sum_list ((λ x, g x + h x)%nat <$> l)
  = (sum_list (g <$> l) + sum_list (h <$> l))%nat.
Proof. induction l as [|x l IH]; csimpl; [done|]. rewrite IH. lia. Qed.

Lemma sum_list_indicator ks (x : string) :
  NoDup ks → x ∈ ks →
  sum_list ((λ k, if decide (x = k) then 1 else 0)%nat <$> ks) = 1%nat.
Proof.
  induction 1 as [|k ks Hk Hks IH]; [by inversion 1|].
  intros Hin. csimpl. destruct (decide (x = k)) as [->|Hne].
  - assert (sum_list ((λ k0, if decide (k = k0) then 1 else 0)%nat <$> ks) = 0%nat)
      as ->; [|done].
    clear IH Hin Hks. induction ks as [|k' ks IH]; csimpl; [done|].
    apply not_elem_of_cons in Hk as [Hne Hk].
    destruct (decide (k = k')); [done|]. by rewrite IH.
  - apply elem_of_cons in Hin as [?|Hin]; [done|]. by rewrite IH.
Qed.

(** Over keys that are pairwise distinct and hold every value of the
    field, the numbers of occurrences add up to the number of records. *)
Lemma occurrences_sum f ks apps :
  NoDup ks → Forall (λ app, f app ∈ ks) apps →
  sum_list ((λ k, occurrences f k apps) <$> ks) = List.length apps.
Proof.
  intros Hnd. induction 1 as [|app apps Hin _ IH].
  - change (sum_list ((λ _ : string, 0%nat) <$> ks) = 0%nat).
    rewrite sum_list_fmap_const. lia.
  - erewrite list_fmap_ext; [|intros ? k _; apply occurrences_cons].
    rewrite sum_list_fmap_plus, IH, (sum_list_indicator ks (f app) Hnd Hin).
    done.
Qed.

Lemma default_entry n : default 0%nat (entry n) = n.
Proof. by destruct n. Qed.
End sum_facts.

(** X11.  When the statistics answer 200, the total is at most 1000; in
    each of the three mappings every key is one of the literals of its
    field (levels, goals, zones); and the counts of each mapping, summed
    over those literals, give the total. *)
Theorem stats_add_up
    {emails : models.EmailStr} {env : Environment}
    (st st' : state) (s : main.stats) :
  main.GET_api_stats st
  = ({| main.status_code := 200; main.body := main.Stats s |}, st') →
  (main.total_applications s ≤ 1000)%nat
  ∧ (∀ k, is_Some (main.by_level s !! k) → k ∈ models.LEVELS)
  ∧ (∀ k, is_Some (main.by_goal s !! k) → k ∈ models.GOALS)
  ∧ (∀ k, is_Some (main.by_zone s !! k) → k ∈ models.ZONES)
  ∧ sum_list ((λ k, default 0%nat (main.by_level s !! k)) <$> models.LEVELS)
    = main.total_applications s
  ∧ sum_list ((λ k, default 0%nat (main.by_goal s !! k)) <$> models.GOALS)
    = main.total_applications s
  ∧ sum_list ((λ k, default 0%nat (main.by_zone s !! k)) <$> models.ZONES)
    = main.total_applications s.
Proof.
  unfold main.GET_api_stats, main.route. rewrite get_stats_eq.
  destruct (FirestoreDB.get_applications 1000 None None st) as [[l|e] st1] eqn:Hget;
    [|done].
  intros [= <- _]. rewrite tally_fold.
  cbn [main.total_applications main.by_level main.by_goal main.by_zone].
  rewrite get_applications_eq in Hget.
  destruct (fault (tick st)); [done|]. simpl in Hget.
  injection Hget as Hl _. apply to_applications_Ok in Hl.
  assert (Hvalid : Forall (λ r, models.level (models.base r) ∈ models.LEVELS
                                ∧ models.goal (models.base r) ∈ models.GOALS
                                ∧ models.dublin_zone (models.base r) ∈ models.ZONES) l).
  { eapply (Forall2_transfer _ (λ _, True)); [|exact Hl|by apply Forall_true].
    intros [k d] r Hr _. by destruct (to_application_admitted _ _ _ Hr) as (_ & _ & ?). }
  assert (Hkey : ∀ (f : models.RunnerApplication → string) (ks : list string) k,
            Forall (λ r, f r ∈ ks) l →
            is_Some (entry (occurrences f k l)) → k ∈ ks).
  { intros f ks k Hf [n Hn]. unfold occurrences in Hn.
    destruct (filter (λ app, f app = k) l) as [|r rs] eqn:Hfl; [done|].
    assert (r ∈ filter (λ app, f app = k) l) as [<- Hr]%list_elem_of_filter
      by (rewrite Hfl; apply list_elem_of_here).
    by eapply Forall_forall in Hf. }
  assert (Hnd : NoDup models.LEVELS ∧ NoDup models.GOALS ∧ NoDup models.ZONES).
  { split_and!; apply (bool_decide_unpack _); reflexivity. }
  destruct Hnd as (Hn1 & Hn2 & Hn3).
  split_and!.
  - rewrite <-(Forall2_length _ _ _ Hl), length_take. lia.
  - intros k. rewrite count_up_fold_empty. apply Hkey.
    eapply Forall_impl; [exact Hvalid|]. by intros r (? & _).
  - intros k. rewrite count_up_fold_empty. apply Hkey.
    eapply Forall_impl; [exact Hvalid|]. by intros r (_ & ? & _).
  - intros k. rewrite count_up_fold_empty. apply Hkey.
    eapply Forall_impl; [exact Hvalid|]. by intros r (_ & _ & ?).
  - erewrite list_fmap_ext;
      [|intros ? k _; rewrite count_up_fold_empty; apply default_entry].
    apply occurrences_sum; [done|].
    eapply Forall_impl; [exact Hvalid|]. by intros r (? & _).
  - erewrite list_fmap_ext;
      [|intros ? k _; rewrite count_up_fold_empty; apply default_entry].
    apply occurrences_sum; [done|].
    eapply Forall_impl; [exact Hvalid|]. by intros r (_ & ? & _).
  - erewrite list_fmap_ext;
      [|intros ? k _; rewrite count_up_fold_empty; apply default_entry].
    apply occurrences_sum; [done|].
    eapply Forall_impl; [exact Hvalid|]. by intros r (_ & _ & ?).
Qed.

Lemma stats_add_up_witness :
  let st :=
    {| docs :=
         <["a1" := worlds.stored (worlds.with_level "beginner" worlds.mario) 30 "pending"]>
         (<["b2" := worlds.stored (worlds.with_level "beginner" worlds.mario) 20 "pending"]>
          {[ "c3" := worlds.stored (worlds.with_level "advanced" worlds.mario) 10 "pending" ]});
       tick := 0 |} in
  ∃ s,
    main.GET_api_stats (emails := worlds.at_sign) (env := worlds.calm) st
    = ({| main.status_code := 200; main.body := main.Stats s |}, bump st)
    ∧ main.total_applications s = 3%nat
    ∧ sum_list ((λ k, default 0%nat (main.by_level s !! k)) <$> models.LEVELS)
      = 3%nat
    ∧ sum_list ((λ k, default 0%nat (main.by_zone s !! k)) <$> models.ZONES)
      = 3%nat.
Proof.
  intros st. eexists. split; [vm_compute; reflexivity|]. split; [reflexivity|].
  edestruct (stats_add_up (emails := worlds.at_sign) (env := worlds.calm)
               st (bump st))
    as (_ & _ & _ & _ & Hlevels & _ & Hzones); [vm_compute; reflexivity|].
  split; [exact Hlevels | exact Hzones].
Defined.

(** ** How the operations compose *)

Section composition_facts.
Context {emails : models.EmailStr} {env : Environment}.

Lemma reachable_at st n i : reachable st n → (i < n)%nat → fault (i + tick st) = None.
Proof. intros Hr Hi. rewrite Nat.add_comm. by apply Hr. Qed.

(** The document written by a creation is read back as the instance, when
    the kept name has two characters. *)
Lemma to_application_created kw application doc_id created :
  models.fields kw = Some application →
  (2 ≤ String.length (models.name application))%nat →
  FirestoreDB.to_application doc_id
    {| doc_fields := application; doc_created_at := created;
       doc_status := "pending" |}
  = Ok {| models.base := application; models.id := doc_id;
          models.created_at := created; models.status := "pending" |}.
Proof.
  intros Hf Hlen. unfold FirestoreDB.to_application, models.RunnerApplication_init.
  simpl. by rewrite (fields_again _ _ Hf Hlen).
Qed.
End composition_facts.

(** [go Hr n i]: the remote call number [i] from the state of [Hr] goes
    through. *)
Ltac go Hr n i :=
  let H := fresh "Hcall" in
  pose proof (reachable_at _ n i Hr ltac:(lia)) as H; simpl in H;
  rewrite H; clear H.

(** X12.  Creating an application and deleting it by the id returned gives
    the collection back as it was, when the three remote calls go through
    and the id drawn was not in use; the deletion reports [true]. *)
Theorem create_then_delete_restores
    {env : Environment} (application : models.RunnerApplicationCreate)
    (st : state) :
  reachable st 3 →
  docs st !! firestore.random_chars (choice (tick st)) 20 = None →
  ∃ app_id st1 st2,
    FirestoreDB.create_application application st = (Ok app_id, st1)
    ∧ FirestoreDB.delete_application app_id st1 = (Ok true, st2)
    ∧ docs st2 = docs st
    ∧ tick st2 = (3 + tick st)%nat.
Proof.
  intros Hr Hfresh. eexists _, _, _.
  rewrite create_application_eq. go Hr 3%nat 0%nat.
  split; [done|]. rewrite delete_application_eq. simpl.
  go Hr 3%nat 1%nat. go Hr 3%nat 2%nat.
  rewrite lookup_insert_eq. split; [done|]. simpl.
  split; [|done]. by apply delete_insert_id.
Qed.

Lemma create_then_delete_restores_witness :
  let st := {| docs := {[ "abc" := worlds.stored worlds.mario 1707213600000000 "pending" ]};
               tick := 0 |} in
  reachable (env := worlds.calm) st 3
  ∧ docs st !! firestore.random_chars (choice (Environment := worlds.calm) (tick st)) 20
    = None
  ∧ ∃ st1 st2,
      FirestoreDB.create_application (env := worlds.calm) worlds.mario st
      = (Ok "52zwtqnkhebYVSPMJGDA", st1)
      ∧ FirestoreDB.delete_application (env := worlds.calm)
          "52zwtqnkhebYVSPMJGDA" st1 = (Ok true, st2)
      ∧ docs st2 = docs st.
Proof.
  intros st.
  assert (Hr : reachable (env := worlds.calm) st 3) by (by intros i _).
  assert (Hfresh : docs st !! firestore.random_chars
                               (choice (Environment := worlds.calm) (tick st)) 20
                   = None) by reflexivity.
  split; [exact Hr|]. split; [exact Hfresh|].
  destruct (create_then_delete_restores (env := worlds.calm) worlds.mario st
              Hr Hfresh)
    as (app_id & st1 & st2 & Hc & Hd & Hdocs & _).
  assert (app_id = "52zwtqnkhebYVSPMJGDA") as ->.
  { assert (Hrun : (FirestoreDB.create_application (env := worlds.calm)
                      worlds.mario st).1 = Ok "52zwtqnkhebYVSPMJGDA")
      by reflexivity.
    rewrite Hc in Hrun. by injection Hrun. }
  by exists st1, st2.
Defined.

(** X13.  Over HTTP, for a body that validates with a kept name of two
    characters at least and six remote calls going through: creation
    answers 201 with a record holding the validated instance; reading the
    id of that record answers 200 with the same record; deleting it
    answers 204; and reading it again answers 404. *)
Theorem created_application_lifecycle
    {emails : models.EmailStr} {env : Environment}
    (request : main.payload) (application : models.RunnerApplicationCreate)
    (st : state) :
  models.RunnerApplicationCreate_init (main.kwargs request) = Ok application →
  (2 ≤ String.length (models.name application))%nat →
  reachable st 6 →
  ∃ r st1 st2 st3 st4 detail,
    main.POST_api_applications request st
    = ({| main.status_code := 201; main.body := main.Application r |}, st1)
    ∧ models.base r = application
    ∧ main.GET_api_application (models.id r) st1
      = ({| main.status_code := 200; main.body := main.Application r |}, st2)
    ∧ main.DELETE_api_application (models.id r) st2
      = ({| main.status_code := 204; main.body := main.NoContent |}, st3)
    ∧ main.GET_api_application (models.id r) st3
      = ({| main.status_code := 404; main.body := main.Detail detail |}, st4).
Proof.
  intros Hvalid Hlen Hr.
  unfold models.RunnerApplicationCreate_init in Hvalid.
  destruct (models.fields (main.kwargs request)) as [a|] eqn:Hf; [|done].
  injection Hvalid as ->.
  pose proof (to_application_created _ _
                (firestore.random_chars (choice (tick st)) 20)
                (utcnow (tick st)) Hf Hlen) as Hread.
  eexists _, _, _, _, _, _. split_and!.
  - unfold main.POST_api_applications, models.RunnerApplicationCreate_init, main.route.
    rewrite Hf, create_application_handler_eq, create_application_eq.
    go Hr 6%nat 0%nat.
    rewrite get_application_eq. unfold bump. cbn [tick docs models.id].
    go Hr 6%nat 1%nat.
    rewrite lookup_insert_eq, Hread. done.
  - done.
  - rewrite GET_api_application_eq. unfold bump. cbn [tick docs models.id].
    go Hr 6%nat 2%nat.
    rewrite lookup_insert_eq, Hread. done.
  - unfold main.DELETE_api_application, main.route.
    rewrite delete_application_handler_eq, delete_application_eq.
    unfold bump. cbn [tick docs models.id].
    go Hr 6%nat 3%nat. go Hr 6%nat 4%nat.
    rewrite lookup_insert_eq. done.
  - rewrite GET_api_application_eq. unfold bump. cbn [tick docs models.id].
    go Hr 6%nat 5%nat.
    rewrite lookup_delete_eq. done.
Qed.

Lemma created_application_lifecycle_witness :
  let request := {| main.kwargs := worlds.mario; main.extra := [] |} in
  models.RunnerApplicationCreate_init (emails := worlds.at_sign)
    (main.kwargs request) = Ok worlds.mario
  ∧ (2 ≤ String.length (models.name worlds.mario))%nat
  ∧ reachable (env := worlds.calm) worlds.empty 6
  ∧ ∃ r st1 st2 st3 st4 detail,
      main.POST_api_applications (emails := worlds.at_sign) (env := worlds.calm)
        request worlds.empty
      = ({| main.status_code := 201; main.body := main.Application r |}, st1)
      ∧ models.base r = worlds.mario
      ∧ main.GET_api_application (emails := worlds.at_sign) (env := worlds.calm)
          (models.id r) st1
        = ({| main.status_code := 200; main.body := main.Application r |}, st2)
      ∧ main.DELETE_api_application (env := worlds.calm) (models.id r) st2
        = ({| main.status_code := 204; main.body := main.NoContent |}, st3)
      ∧ main.GET_api_application (emails := worlds.at_sign) (env := worlds.calm)
          (models.id r) st3
        = ({| main.status_code := 404; main.body := main.Detail detail |}, st4).
Proof.
  intros request.
  assert (Hr : reachable (env := worlds.calm) worlds.empty 6) by (by intros i _).
  assert (Hlen : (2 ≤ String.length (models.name worlds.mario))%nat)
    by (simpl; lia).
  split; [reflexivity|]. split; [exact Hlen|]. split; [exact Hr|].
  exact (created_application_lifecycle (emails := worlds.at_sign)
           (env := worlds.calm) request worlds.mario worlds.empty eq_refl Hlen Hr).
Defined.

(** X14.  A collection in which every document passes the read model stays
    so, in every world, under: a creation request whose body validates
    with a kept name of two characters at least; an update of a status to
    one of pending, approved, rejected; and a deletion. *)
Theorem readable_collection_is_preserved
    {emails : models.EmailStr} {env : Environment} (st : state) :
  map_Forall (λ k d, ∃ r, FirestoreDB.to_application k d = Ok r) (docs st) →
  (∀ request application,
     models.RunnerApplicationCreate_init (main.kwargs request) = Ok application →
     (2 ≤ String.length (models.name application))%nat →
     map_Forall (λ k d, ∃ r, FirestoreDB.to_application k d = Ok r)
       (docs (main.POST_api_applications request st).2))
  ∧ (∀ application_id status,
       status ∈ models.STATUSES →
       map_Forall (λ k d, ∃ r, FirestoreDB.to_application k d = Ok r)
         (docs (FirestoreDB.update_application_status
                  application_id status st).2))
  ∧ (∀ application_id,
       map_Forall (λ k d, ∃ r, FirestoreDB.to_application k d = Ok r)
         (docs (main.DELETE_api_application application_id st).2)).
Proof.
  intros Hok. split_and!.
  - intros request application Hvalid Hlen.
    unfold main.POST_api_applications. rewrite Hvalid.
    unfold models.RunnerApplicationCreate_init in Hvalid.
    destruct (models.fields (main.kwargs request)) as [a|] eqn:Hf; [|done].
    injection Hvalid as ->.
    unfold main.route.
    rewrite create_application_handler_eq, create_application_eq.
    destruct (fault (tick st)); [done|].
    assert (map_Forall (λ k d, ∃ r, FirestoreDB.to_application k d = Ok r)
              (<[firestore.random_chars (choice (tick st)) 20 :=
                   {| doc_fields := application;
                      doc_created_at := utcnow (tick st);
                      doc_status := "pending" |}]> (docs st))) as Hnew.
    { apply map_Forall_insert_2; [|done].
      rewrite (to_application_created _ _ _ _ Hf Hlen). eauto. }
    rewrite get_application_eq. simpl.
    destruct (fault (S (tick st))); [done|]. rewrite lookup_insert_eq.
    destruct (FirestoreDB.to_application _ _) as [r|e];
      [|destruct (is_ValueError e)]; done.
  - intros application_id status Hs.
    rewrite update_application_status_eq.
    destruct (fault (tick st)); [done|].
    destruct (docs st !! application_id) as [d|] eqn:Ed; [|done].
    destruct (fault (S (tick st))); [done|].
    assert (map_Forall (λ k d, ∃ r, FirestoreDB.to_application k d = Ok r)
              (<[application_id := with_status status d]> (docs st))) as Hnew.
    { apply map_Forall_insert_2; [|done].
      destruct (Hok _ _ Ed) as [r Hr].
      rewrite (to_application_with_status _ _ _ _ Hr Hs). eauto. }
    rewrite get_application_eq. simpl.
    destruct (fault (S (S (tick st)))); [done|]. rewrite lookup_insert_eq.
    by destruct (FirestoreDB.to_application _ _).
  - intros application_id. unfold main.DELETE_api_application, main.route.
    rewrite delete_application_handler_eq, delete_application_eq.
    destruct (fault (tick st)); [done|].
    destruct (docs st !! application_id); [|done].
    destruct (fault (S (tick st))); [done|]. simpl.
    by apply map_Forall_delete.
Qed.

Lemma readable_collection_is_preserved_witness :
  let st := {| docs := {[ "abc" := worlds.stored worlds.mario 1707213600000000 "pending" ]};
               tick := 0 |} in
  let request := {| main.kwargs := worlds.mario; main.extra := [] |} in
  map_Forall (λ k d, ∃ r, FirestoreDB.to_application (emails := worlds.at_sign)
                            k d = Ok r) (docs st)
  ∧ map_Forall (λ k d, ∃ r, FirestoreDB.to_application (emails := worlds.at_sign)
                              k d = Ok r)
      (docs (main.POST_api_applications (emails := worlds.at_sign)
               (env := worlds.calm) request st).2)
  ∧ map_Forall (λ k d, ∃ r, FirestoreDB.to_application (emails := worlds.at_sign)
                              k d = Ok r)
      (docs (FirestoreDB.update_application_status (emails := worlds.at_sign)
               (env := worlds.calm) "abc" "rejected" st).2).
Proof.
  intros st request.
  assert (Hok : map_Forall (λ k d, ∃ r, FirestoreDB.to_application
                                          (emails := worlds.at_sign) k d = Ok r)
                  (docs st)).
  { apply map_Forall_singleton. by eexists. }
  destruct (readable_collection_is_preserved
              (emails := worlds.at_sign) (env := worlds.calm) st Hok)
    as (Hpost & Hupdate & _).
  split; [exact Hok|]. split.
  - apply (Hpost request worlds.mario); [reflexivity | simpl; lia].
  - apply Hupdate. by apply (bool_decide_unpack _).
Defined.

Section listing_facts.
Context {emails : models.EmailStr} {env : Environment}.

Lemma Forall2_elem_of_l {A B} (P : A → B → Prop) l k x :
  Forall2 P l k → x ∈ l → ∃ y, y ∈ k ∧ P x y.
Proof.
  induction 1 as [|x' y' l k Hxy _ IH]; [by inversion 1|].
  intros [->|Hin]%elem_of_cons.
  - exists y'. split; [apply list_elem_of_here | done].
  - destruct (IH Hin) as (y & Hy & HP). exists y.
    split; [by apply list_elem_of_further | done].
Qed.
End listing_facts.

(** X15.  A record just created is listed: for a body that validates with
    a kept name of two characters at least, in a collection whose
    documents all pass the read model, with three remote calls going
    through and a limit that admits the whole collection, creation answers
    201 with a record and a list whose filters the new document passes
    then returns a list in which that record occurs. *)
Theorem created_application_is_listed
    {emails : models.EmailStr} {env : Environment}
    (request : main.payload) (application : models.RunnerApplicationCreate)
    (limit : Z) (level goal : option string) (st : state) :
  models.RunnerApplicationCreate_init (main.kwargs request) = Ok application →
  (2 ≤ String.length (models.name application))%nat →
  map_Forall (λ k d, ∃ r, FirestoreDB.to_application k d = Ok r) (docs st) →
  reachable st 3 →
  0 ≤ limit < 2 ^ 31 →
  (size (docs st) < Z.to_nat limit)%nat →
  wanted level goal
    (firestore.random_chars (choice (tick st)) 20,
     {| doc_fields := application; doc_created_at := utcnow (tick st);
        doc_status := "pending" |}) →
  ∃ r st1 l st2,
    main.POST_api_applications request st
    = ({| main.status_code := 201; main.body := main.Application r |}, st1)
    ∧ main.GET_api_applications (Some limit) level goal st1
      = ({| main.status_code := 200; main.body := main.Applications l |}, st2)
    ∧ r ∈ l.
Proof.
  intros Hvalid Hlen Hok Hr Hlimit Hsize Hw.
  unfold models.RunnerApplicationCreate_init in Hvalid.
  destruct (models.fields (main.kwargs request)) as [a|] eqn:Hf; [|done].
  injection Hvalid as ->.
  set (app_id := firestore.random_chars (choice (tick st)) 20) in *.
  set (doc := {| doc_fields := application; doc_created_at := utcnow (tick st);
                 doc_status := "pending" |}) in *.
  pose proof (to_application_created _ _ app_id (utcnow (tick st)) Hf Hlen) as Hread.
  fold doc in Hread.
  set (docs1 := <[app_id := doc]> (docs st)).
  set (all := filter (wanted level goal)
                (merge_sort firestore.newer_first (map_to_list docs1))).
  assert (Hall : Forall (λ kd, ∃ r, FirestoreDB.to_application kd.1 kd.2 = Ok r) all).
  { apply Forall_forall. intros [k d] [_ Hkd]%elem_of_selection. simpl in *.
    unfold docs1 in Hkd. destruct (decide (k = app_id)) as [->|Hne].
    - rewrite lookup_insert_eq in Hkd. injection Hkd as <-. eauto.
    - rewrite lookup_insert_ne in Hkd by done. by apply (Hok k d). }
  destruct (to_applications_readable all Hall) as [l Hl].
  assert (Hin : (app_id, doc) ∈ all).
  { apply elem_of_selection. split; [done|]. apply lookup_insert_eq. }
  destruct (Forall2_elem_of_l _ _ _ _ (proj1 (to_applications_Ok _ _) Hl) Hin)
    as (r & Hrl & Hrr). simpl in Hrr. rewrite Hread in Hrr. injection Hrr as <-.
  eexists _, _, l, _. split_and!.
  - unfold main.POST_api_applications, models.RunnerApplicationCreate_init, main.route.
    rewrite Hf, create_application_handler_eq, create_application_eq.
    go Hr 3%nat 0%nat.
    rewrite get_application_eq. unfold bump. cbn [tick docs].
    go Hr 3%nat 1%nat.
    fold app_id doc. rewrite lookup_insert_eq, Hread. done.
  - unfold main.GET_api_applications, main.route.
    rewrite list_applications_eq.
    change (default 50 (Some limit)) with limit.
    rewrite get_applications_eq. unfold bump. cbn [tick docs].
    go Hr 3%nat 2%nat.
    replace (0 <=? limit) with true by (symmetry; apply Z.leb_le; lia).
    replace (limit <? 2 ^ 31) with true by (symmetry; apply Z.ltb_lt; lia).
    cbn [andb]. fold docs1 all.
    rewrite take_ge, Hl; [done|].
    etrans; [apply length_selection|]. unfold docs1.
    rewrite map_size_insert. destruct (docs st !! app_id); simpl; lia.
  - done.
Qed.

Lemma created_application_is_listed_witness :
  let st := {| docs := {[ "abc" := worlds.stored worlds.mario 1707213600000000 "approved" ]};
               tick := 0 |} in
  let request := {| main.kwargs := worlds.with_level "beginner" worlds.mario;
                    main.extra := [] |} in
  ∃ r st1 l st2,
    main.POST_api_applications (emails := worlds.at_sign) (env := worlds.calm)
      request st
    = ({| main.status_code := 201; main.body := main.Application r |}, st1)
    ∧ main.GET_api_applications (emails := worlds.at_sign) (env := worlds.calm)
        (Some 50) (Some "beginner") None st1
      = ({| main.status_code := 200; main.body := main.Applications l |}, st2)
    ∧ r ∈ l.
Proof.
  intros st request.
  apply (created_application_is_listed (emails := worlds.at_sign)
           (env := worlds.calm) request
           (worlds.with_level "beginner" worlds.mario) 50 (Some "beginner") None st).
  - reflexivity.
  - simpl. lia.
  - apply map_Forall_singleton. by eexists.
  - by intros i _.
  - lia.
  - vm_compute. lia.
  - by split.
Defined.

(** X16.  Creation answers 422 exactly when the body does not validate;
    it then leaves the whole state as it was, having made no remote call.
    Any other answer comes after one remote call at least. *)
Theorem creation_validates_before_storage
    {emails : models.EmailStr} {env : Environment}
    (request : main.payload) (st : state) :
  (main.status_code (main.POST_api_applications request st).1 = 422
   ↔ ∀ application,
       models.RunnerApplicationCreate_init (main.kwargs request) ≠ Ok application)
  ∧ (main.status_code (main.POST_api_applications request st).1 = 422 →
     (main.POST_api_applications request st).2 = st)
  ∧ (main.status_code (main.POST_api_applications request st).1 ≠ 422 →
     (tick st < tick (main.POST_api_applications request st).2)%nat).
Proof.
  unfold main.POST_api_applications.
  destruct (models.RunnerApplicationCreate_init (main.kwargs request))
    as [application|e] eqn:Hinit.
  - assert (Hrun : main.status_code
                     (main.route
                        (λ r, {| main.status_code := 201;
                                 main.body := main.Application r |})
                        (main.create_application application) st).1 ≠ 422
                   ∧ (tick st < tick (main.route
                        (λ r, {| main.status_code := 201;
                                 main.body := main.Application r |})
                        (main.create_application application) st).2)%nat).
    { unfold main.route.
      rewrite create_application_handler_eq, create_application_eq.
      destruct (fault (tick st)); [simpl; split; [done|lia]|].
      rewrite get_application_eq. cbn [tick docs].
      destruct (fault (S (tick st))); [simpl; split; [done|lia]|].
      rewrite lookup_insert_eq.
      destruct (FirestoreDB.to_application _ _) as [r|e];
        [|destruct (is_ValueError e)]; simpl; (split; [done|lia]). }
    destruct Hrun as [Hcode Htick]. split_and!; [split| |]; try done.
    intros Hno. by destruct (Hno application).
  - simpl. split_and!; done.
Qed.

Lemma creation_validates_before_storage_witness :
  let request := {| main.kwargs := worlds.with_name "M" worlds.mario;
                    main.extra := [] |} in
  (∀ application,
     models.RunnerApplicationCreate_init (emails := worlds.at_sign)
       (main.kwargs request) ≠ Ok application)
  ∧ main.status_code
      (main.POST_api_applications (emails := worlds.at_sign)
         (env := worlds.offline) request worlds.empty).1 = 422
  ∧ (main.POST_api_applications (emails := worlds.at_sign)
       (env := worlds.offline) request worlds.empty).2 = worlds.empty.
Proof.
  intros request.
  assert (Hbad : ∀ application,
            models.RunnerApplicationCreate_init (emails := worlds.at_sign)
              (main.kwargs request) ≠ Ok application) by (intros a; discriminate).
  destruct (creation_validates_before_storage (emails := worlds.at_sign)
              (env := worlds.offline) request worlds.empty)
    as ([_ Hcode] & Hstate & _).
  split; [exact Hbad|]. split; [by apply Hcode | by apply Hstate, Hcode].
Defined.
